(** * Inventory-App: the stock ledger, the catalog and the scan session

    A shallow embedding of [src/server/index.js] (the HTTP handlers over the
    tables [items], [inventory_onhand] and [inventory_events]) and of the
    remove-confirmation dialog of [src/web/src/ui/App.tsx] and of its copy
    with the mobile layout, with the properties of the specification stated
    over them.

    Conventions of the embedding.
    - A JSON field that is absent ([undefined]) or [null] is [None]; a JSON
      string is [Some s].  Both [!x] and [x ?? d] treat [undefined] and
      [null] alike, so the two are not told apart.
    - The database is a value threaded through the statements of a handler;
      [BEGIN ... COMMIT] keeps the state reached, [ROLLBACK] restores the
      state the transaction started from.
    - The table definitions are not part of the sources.  [items] is keyed
      by ["ScannedCode"] (the conflict target of the upsert), and
      [inventory_onhand] by [item_id] (the conflict target of
      [ensureOnHandRow]). *)

From Stdlib Require Import Ascii String ZArith Lia Qcanon.
From stdpp Require Import gmap strings list fin_maps.

Open Scope string_scope.
Open Scope list_scope.
Open Scope Z_scope.

(** ** Tables *)

(** A value of the numeric columns.  The handlers only store these numbers
    and cast them to text; none computes with them. *)
Definition number : Type := Qc.

Record item : Type := mkItem {
  item_id        : N;
  InventoryDate  : string;
  ScannedCode    : string;
  Brand          : option string;
  Model          : string;
  Size           : option string;
  Color          : option string;
  Notes          : option string;
  SoldOrderNum   : option string;
  PurchasedFrom  : option string;
  PaintThickness : option number;
  Price          : option number;
  Qty            : option number
}.

Inductive action : Type := add | remove.

#[global] Instance action_eq_dec : EqDecision action.
Proof. solve_decision. Defined.

(** A row of [inventory_events], with the columns the handlers write. *)
Record event : Type := mkEvent {
  ev_item_id        : N;
  ev_action         : action;
  ev_qty            : Z;
  Order_Id          : option string;
  Where_bought_from : option string;
  Date_Subtracted   : option string
}.

(** Modelled from the spec: the table definitions (not in the sources).
    [next_id] stands for the generator of the system-assigned, opaque item
    identifier: a new catalog row takes it and the generator moves on. *)
Record db : Type := mkDb {
  items            : gmap string item;
  inventory_onhand : gmap N Z;
  inventory_events : list event;
  next_id          : N
}.

Definition empty_db : db :=
  {| items := ∅; inventory_onhand := ∅; inventory_events := []; next_id := 0%N |}.

(** ** Statements of the search *)

(** The columns of [items] behind the filterable fields. *)
Inductive column : Type :=
  | col_Brand | col_Model | col_Size | col_Color
  | col_PurchasedFrom | col_ScannedCode | col_Notes | col_SoldOrderNum.

#[global] Instance column_eq_dec : EqDecision column.
Proof. solve_decision. Defined.

Inductive sql_param : Type :=
  | text_param (s : string)
  | array_param (l : list string).

(** The conjuncts of the [WHERE] clause, each over the parameter [$i]. *)
Inductive condition : Type :=
  | ILIKE_any (i : nat)                    (* the twelve columns, each ILIKE $i *)
  | LOWER_eq_ANY (col : column) (i : nat). (* LOWER(col) = ANY($i) *)

(** [SELECT i.*, COALESCE(oh.on_hand, 0) AS "onHand" FROM items i LEFT JOIN
     inventory_onhand oh ... WHERE ... ORDER BY i."Brand" NULLS LAST,
     i."Model" NULLS LAST, i."ScannedCode" LIMIT 200] *)
Record search_statement : Type := mkSearch {
  where_ : list condition;
  params : list sql_param;
  limit  : nat
}.

(** ** Responses *)

Inductive error : Type :=
  | MISSING_FIELDS | MISSING_BARCODE | ITEM_NOT_FOUND
  | OUT_OF_STOCK | INVALID_FIELD | SERVER_ERROR.

(** The columns [/inventory/remove/initiate] selects for its answer. *)
Record initiate_item : Type := mkInitiateItem {
  ii_id : N; ii_ScannedCode : string; ii_Brand : option string;
  ii_Model : string; ii_Color : option string; ii_Size : option string
}.

Inductive response : Type :=
  | Created_item (it : item)                              (* 201, the row *)
  | Created_add (ev : event) (id : N) (model : string)    (* 201 {event, item} *)
  | CONFIRM_REQUIRED (it : initiate_item) (onHand : Z)    (* 200 *)
  | REGISTERED_ZERO_STOCK (it : initiate_item)            (* 200, onHand: 0 *)
  | REMOVED (it : option N) (onHand : Z) (ev : event)     (* 200; [it]: the item, where sent *)
  | Search_rows (st : search_statement)                   (* 200, the rows of [st] *)
  | Distinct_rows (col : column)                          (* 200, value and count per value *)
  | Failure (status : N) (e : error) (onHand : option Z).

(** ** Statements of a transaction *)

Inductive verdict : Type := COMMIT | ROLLBACK.

(** [BEGIN; body; COMMIT] or [BEGIN; body; ROLLBACK]: the body runs on the
    state at [BEGIN] and says how it ended. *)
Definition transaction {A : Type} (body : db → db * (verdict * A)) (d : db) : db * A :=
  let '(d', (v, a)) := body d in
  match v with
  | COMMIT => (d', a)
  | ROLLBACK => (d, a)
  end.

(** [SELECT ... FROM items WHERE "ScannedCode" = $1] *)
Definition select_item (code : string) (d : db) : option item :=
  items d !! code.

(** [SELECT on_hand FROM inventory_onhand WHERE item_id = $1] (also with
    [FOR UPDATE], which only takes the row lock). *)
Definition select_on_hand (itemId : N) (d : db) : option Z :=
  inventory_onhand d !! itemId.

(** [INSERT INTO inventory_onhand (item_id, on_hand) VALUES ($1, 0)
     ON CONFLICT (item_id) DO NOTHING] *)
Definition ensureOnHandRow (itemId : N) (d : db) : db :=
  match inventory_onhand d !! itemId with
  | Some _ => d
  | None =>
      {| items := items d;
         inventory_onhand := <[itemId := 0]> (inventory_onhand d);
         inventory_events := inventory_events d;
         next_id := next_id d |}
  end.

(** [UPDATE inventory_onhand SET on_hand = on_hand + delta WHERE item_id = $1] *)
Definition update_on_hand (delta : Z) (itemId : N) (d : db) : db :=
  {| items := items d;
     inventory_onhand := alter (λ q, q + delta) itemId (inventory_onhand d);
     inventory_events := inventory_events d;
     next_id := next_id d |}.

(** [INSERT INTO inventory_events (...) VALUES (...) RETURNING *] *)
Definition insert_event (ev : event) (d : db) : db * event :=
  ({| items := items d;
      inventory_onhand := inventory_onhand d;
      inventory_events := inventory_events d ++ [ev];
      next_id := next_id d |}, ev).

(** [!x] on a JSON string field. *)
Definition falsy (x : option string) : bool :=
  match x with
  | None => true
  | Some s => bool_decide (s = "")
  end.

(** A string field bound as a statement parameter.  Every handler binds it
    only after the [!x] test, so the [None] case is never reached. *)
Definition param (x : option string) : string := default "" x.

(** ** The stock handlers *)

(** [POST /inventory/add] *)
Definition post_inventory_add (barcode : option string) (d : db) : db * response :=
  if falsy barcode then (d, Failure 400 MISSING_BARCODE None) else
  transaction (λ d0,
    match select_item (param barcode) d0 with
    | None => (d0, (ROLLBACK, Failure 404 ITEM_NOT_FOUND None))
    | Some it =>
        let d1 := ensureOnHandRow (item_id it) d0 in
        let d2 := update_on_hand 1 (item_id it) d1 in
        let '(d3, ev) := insert_event (mkEvent (item_id it) add 1 None None None) d2 in
        (d3, (COMMIT, Created_add ev (item_id it) (Model it)))
    end) d.

(** [POST /inventory/remove/initiate] *)
Definition post_inventory_remove_initiate (barcode : option string) (d : db) : db * response :=
  if falsy barcode then (d, Failure 400 MISSING_BARCODE None) else
  transaction (λ d0,
    match select_item (param barcode) d0 with
    | None => (d0, (ROLLBACK, Failure 404 ITEM_NOT_FOUND None))
    | Some it =>
        let view := mkInitiateItem (item_id it) (ScannedCode it) (Brand it)
                                   (Model it) (Color it) (Size it) in
        let d1 := ensureOnHandRow (item_id it) d0 in
        match select_on_hand (item_id it) d1 with
        | None => (d1, (ROLLBACK, Failure 500 SERVER_ERROR None)) (* oh.rows[0] is undefined *)
        | Some onHand =>
            (d1, (COMMIT,
                  if bool_decide (onHand > 0) then CONFIRM_REQUIRED view onHand
                  else REGISTERED_ZERO_STOCK view))
        end
    end) d.

(** ["Date Subtracted"] of the body, as the cast [$4::timestamptz] of the
    INSERT reads it.  The handler passes the value on unchecked, so it is
    either a text the database reads as a timestamp, or any other value (the
    empty string, a text that is no date), on which the cast raises an
    error. *)
Inductive date_text : Type :=
  | timestamptz (t : string)
  | not_timestamptz (s : string).

(** The body of [POST /inventory/remove/confirm]. *)
Record confirm_body : Type := mkConfirmBody {
  barcode        : option string;
  orderId        : option string;   (* "Order Id" *)
  whereBoughtFrom : option string;  (* "Where bought from" *)
  dateSubtracted : option date_text (* "Date Subtracted" *)
}.

(** [COALESCE(x, dflt)], and [x ?? dflt] *)
Definition coalesce {A : Type} (x : option A) (dflt : A) : A :=
  match x with Some v => v | None => dflt end.

(** [COALESCE($4::timestamptz, now())] with [$4] bound to
    [dateSubtracted ?? null]: the timestamp of the body, the clock where the
    body has none, and [None] where the cast raises its error. *)
Definition date_subtracted (x : option date_text) (now : string) : option string :=
  match x with
  | None => Some now
  | Some (timestamptz t) => Some t
  | Some (not_timestamptz _) => None
  end.

(** [POST /inventory/remove/confirm]; [now] is the database clock.  (The
    second copy of the server kept in the same file reads the item of this
    handler through columns [barcode] and [name], which no handler writes
    and whose table definition is not in the sources; it is not embedded.) *)
Definition post_inventory_remove_confirm (now : string) (b : confirm_body) (d : db)
  : db * response :=
  if falsy (barcode b) then (d, Failure 400 MISSING_BARCODE None) else
  transaction (λ d0,
    match select_item (param (barcode b)) d0 with
    | None => (d0, (ROLLBACK, Failure 404 ITEM_NOT_FOUND None))
    | Some it =>
        match select_on_hand (item_id it) d0 with
        | None => (d0, (ROLLBACK, Failure 409 OUT_OF_STOCK (Some 0)))
        | Some onHand =>
            if bool_decide (onHand ≤ 0)
            then (d0, (ROLLBACK, Failure 409 OUT_OF_STOCK (Some 0)))
            else
              let d1 := update_on_hand (-1) (item_id it) d0 in
              match date_subtracted (dateSubtracted b) now with
              | None =>
                  (* the INSERT throws: [catch], ROLLBACK, 500 *)
                  (d1, (ROLLBACK, Failure 500 SERVER_ERROR None))
              | Some date =>
                  let '(d2, ev) :=
                    insert_event
                      (mkEvent (item_id it) remove 1 (orderId b) (whereBoughtFrom b)
                               (Some date)) d1 in
                  let newOnHand := onHand - 1 in
                  (d2, (COMMIT, REMOVED None newOnHand ev))
              end
        end
    end) d.

(** ** The catalog write *)

(** A numeric field of the body: absent or [null], the empty string of an
    untouched form input, or a number. *)
Inductive numeric_field : Type :=
  | num_absent | num_empty_string | num_value (n : number).

(** [(x === '' || x == null) ? null : Number(x)] *)
Definition number_or_null (x : numeric_field) : option number :=
  match x with
  | num_absent | num_empty_string => None
  | num_value n => Some n
  end.

(** The body of [POST /items]. *)
Record item_body : Type := mkItemBody {
  body_InventoryDate  : option string;
  body_ScannedCode    : option string;
  body_Brand          : option string;
  body_Model          : option string;
  body_Size           : option string;
  body_Color          : option string;
  body_Notes          : option string;
  body_SoldOrderNum   : option string;
  body_PurchasedFrom  : option string;
  body_PaintThickness : numeric_field;
  body_Price          : numeric_field;
  body_Qty            : numeric_field
}.

(** The twelve parameters [$1 .. $12] of the upsert. *)
Record item_values : Type := mkItemValues {
  v_InventoryDate  : option string;
  v_ScannedCode    : string;
  v_Brand          : option string;
  v_Model          : string;
  v_Size           : option string;
  v_Color          : option string;
  v_Notes          : option string;
  v_SoldOrderNum   : option string;
  v_PurchasedFrom  : option string;
  v_PaintThickness : option number;
  v_Price          : option number;
  v_Qty            : option number
}.

(** [INSERT INTO items (...) VALUES ($1 .. $12)
     ON CONFLICT ("ScannedCode") DO UPDATE SET
       "InventoryDate" = COALESCE(EXCLUDED."InventoryDate", items."InventoryDate"),
       "Brand" = EXCLUDED."Brand", ... RETURNING *].
    A new row takes the next identifier; a null date of a new row falls to
    the column default, the time of creation [now]. *)
Definition insert_item_on_conflict_update (now : string) (v : item_values) (d : db)
  : db * item :=
  match items d !! v_ScannedCode v with
  | Some old =>
      let it :=
        {| item_id := item_id old;
           InventoryDate := coalesce (v_InventoryDate v) (InventoryDate old);
           ScannedCode := ScannedCode old;
           Brand := v_Brand v; Model := v_Model v; Size := v_Size v;
           Color := v_Color v; Notes := v_Notes v;
           SoldOrderNum := v_SoldOrderNum v; PurchasedFrom := v_PurchasedFrom v;
           PaintThickness := v_PaintThickness v; Price := v_Price v; Qty := v_Qty v |} in
      ({| items := <[v_ScannedCode v := it]> (items d);
          inventory_onhand := inventory_onhand d;
          inventory_events := inventory_events d;
          next_id := next_id d |}, it)
  | None =>
      let it :=
        {| item_id := next_id d;
           InventoryDate := coalesce (v_InventoryDate v) now;
           ScannedCode := v_ScannedCode v;
           Brand := v_Brand v; Model := v_Model v; Size := v_Size v;
           Color := v_Color v; Notes := v_Notes v;
           SoldOrderNum := v_SoldOrderNum v; PurchasedFrom := v_PurchasedFrom v;
           PaintThickness := v_PaintThickness v; Price := v_Price v; Qty := v_Qty v |} in
      ({| items := <[v_ScannedCode v := it]> (items d);
          inventory_onhand := inventory_onhand d;
          inventory_events := inventory_events d;
          next_id := N.succ (next_id d) |}, it)
  end.

(** [POST /items]; [now] is [new Date().toISOString()]. *)
Definition post_items (now : string) (b : item_body) (d : db) : db * response :=
  if falsy (body_ScannedCode b) || falsy (body_Model b)
  then (d, Failure 400 MISSING_FIELDS None) else
  transaction (λ d0,
    let '(d1, it) :=
      insert_item_on_conflict_update now
        {| v_InventoryDate := Some (coalesce (body_InventoryDate b) now);
           v_ScannedCode := param (body_ScannedCode b);
           v_Brand := body_Brand b;
           v_Model := param (body_Model b);
           v_Size := body_Size b;
           v_Color := body_Color b;
           v_Notes := body_Notes b;
           v_SoldOrderNum := body_SoldOrderNum b;
           v_PurchasedFrom := body_PurchasedFrom b;
           v_PaintThickness := number_or_null (body_PaintThickness b);
           v_Price := number_or_null (body_Price b);
           v_Qty := number_or_null (body_Qty b) |} d0 in
    let d2 := ensureOnHandRow (item_id it) d1 in
    (d2, (COMMIT, Created_item it))) d.

(** ** The server as a transition system *)

Inductive request : Type :=
  | POST_items (b : item_body)
  | POST_inventory_add (barcode : option string)
  | POST_inventory_remove_initiate (barcode : option string)
  | POST_inventory_remove_confirm (b : confirm_body).

(** One request served; [now] is the clock read while serving it. *)
Definition handle (now : string) (r : request) (d : db) : db * response :=
  match r with
  | POST_items b => post_items now b d
  | POST_inventory_add code => post_inventory_add code d
  | POST_inventory_remove_initiate code => post_inventory_remove_initiate code d
  | POST_inventory_remove_confirm b => post_inventory_remove_confirm now b d
  end.

(** Requests served one after the other, with the answers given. *)
Fixpoint serve (calls : list (string * request)) (d : db) : db * list response :=
  match calls with
  | [] => (d, [])
  | (now, r) :: rest =>
      let '(d1, a) := handle now r d in
      let '(d2, answers) := serve rest d1 in
      (d2, a :: answers)
  end.

(** The states the server can be in: any sequence of requests from the
    empty tables. *)
Inductive reachable : db → Prop :=
  | reachable_empty : reachable empty_db
  | reachable_step now r d : reachable d → reachable (handle now r d).1.

(** The on-hand quantity as the search shows it: [COALESCE(oh.on_hand, 0)]. *)
Definition onHand_of (itemId : N) (d : db) : Z :=
  coalesce (inventory_onhand d !! itemId) 0.

(** The events of one item with a given action. *)
Definition events_of (itemId : N) (a : action) (d : db) : list event :=
  filter (λ ev, ev_item_id ev = itemId ∧ ev_action ev = a) (inventory_events d).

(** ** Strings of the search *)

(** Strings are sequences of bytes here; the case mapping and the white
    space are those of ASCII. *)
Definition lower_char (c : ascii) : ascii :=
  let n := N_of_ascii c in
  if (65 <=? n)%N && (n <=? 90)%N then ascii_of_N (n + 32) else c.

(** [s.toLowerCase()], and [LOWER(s)] of the database *)
Fixpoint toLowerCase (s : string) : string :=
  match s with
  | EmptyString => EmptyString
  | String c s' => String (lower_char c) (toLowerCase s')
  end.

Definition is_space (c : ascii) : bool :=
  let n := N_of_ascii c in
  ((9 <=? n)%N && (n <=? 13)%N) || (n =? 32)%N.

Fixpoint trim_start (s : string) : string :=
  match s with
  | EmptyString => EmptyString
  | String c s' => if is_space c then trim_start s' else s
  end.

Fixpoint trim_end (s : string) : string :=
  match s with
  | EmptyString => EmptyString
  | String c s' =>
      let t := trim_end s' in
      if is_space c && bool_decide (t = EmptyString) then EmptyString else String c t
  end.

(** [s.trim()] *)
Definition trim (s : string) : string := trim_end (trim_start s).

(** [s.split(',')] *)
Fixpoint split_comma (s : string) : list string :=
  match s with
  | EmptyString => [EmptyString]
  | String c s' =>
      let r := split_comma s' in
      if Ascii.eqb c "," then EmptyString :: r
      else match r with
           | h :: t => String c h :: t
           | [] => [String c EmptyString]
           end
  end.

(** [s.replace(/[%_]/g, '\\$&')]: a backslash before every [%] and [_]. *)
Fixpoint escape_like (s : string) : string :=
  match s with
  | EmptyString => EmptyString
  | String c s' =>
      if Ascii.eqb c "%" || Ascii.eqb c "_"
      then String "\" (String c (escape_like s'))
      else String c (escape_like s')
  end.

(** ** The query string *)

(** A value of [req.query]: a string, or an array when the key is repeated. *)
Inductive qval : Type :=
  | QStr (s : string)
  | QArr (l : list string).

(** [String(v)]; an array prints as its elements joined by commas, which is
    also [v.join(',')]. *)
Definition qval_toString (v : qval) : string :=
  match v with
  | QStr s => s
  | QArr l => String.concat "," l
  end.

(** [!v] *)
Definition qval_falsy (v : option qval) : bool :=
  match v with
  | None => true
  | Some (QStr s) => bool_decide (s = "")
  | Some (QArr _) => false
  end.

(** A property read [o[k]] of an object literal: its own entry, or a member
    inherited from [Object.prototype] (a function or an object, hence
    truthy), or [undefined]. *)
Inductive property (A : Type) : Type :=
  | own (a : A)
  | inherited
  | undefined.
Arguments own {A} a.
Arguments inherited {A}.
Arguments undefined {A}.

Definition Object_prototype : list string :=
  [ "constructor"; "__defineGetter__"; "__defineSetter__"; "hasOwnProperty";
    "__lookupGetter__"; "__lookupSetter__"; "isPrototypeOf";
    "propertyIsEnumerable"; "toString"; "valueOf"; "__proto__";
    "toLocaleString" ].

Definition get_property {A : Type} (o : gmap string A) (k : string) : property A :=
  match o !! k with
  | Some a => own a
  | None => if bool_decide (k ∈ Object_prototype) then inherited else undefined
  end.

Definition FIELD_MAP : gmap string column :=
  list_to_map
    [ ("brand", col_Brand); ("model", col_Model); ("size", col_Size);
      ("color", col_Color); ("purchasedfrom", col_PurchasedFrom);
      ("scannedcode", col_ScannedCode); ("notes", col_Notes);
      ("soldorder", col_SoldOrderNum) ].

(** ** The search handlers *)

(** [String(req.query.field || '').toLowerCase()] *)
Definition fieldParam (query : gmap string qval) : string :=
  toLowerCase (if qval_falsy (query !! "field") then ""
               else from_option qval_toString "" (query !! "field")).

(** [GET /items/distinct] *)
Definition get_items_distinct (query : gmap string qval) : response :=
  match get_property FIELD_MAP (fieldParam query) with
  | undefined => Failure 400 INVALID_FIELD None
  | own col => Distinct_rows col
  | inherited => Failure 500 SERVER_ERROR None   (* the statement does not parse *)
  end.

(** [parseList(k)] of [GET /items/search] *)
Definition parseList (query : gmap string qval) (k : string) : list string :=
  if qval_falsy (query !! k) then []
  else
    let s := from_option qval_toString "" (query !! k) in
    filter (λ x, x ≠ "") (map trim (split_comma s)).

(** The keys of the [filters] object, in the order of [Object.entries]. *)
Definition filter_keys : list string :=
  [ "brand"; "model"; "size"; "color"; "purchasedfrom"; "scannedcode";
    "notes"; "soldorder" ].

(** The state of the loop that builds the clause: [where], [params], [i];
    [None] once a column is not a column name (the statement is then
    refused by the database). *)
Definition add_filter (acc : option (list condition * list sql_param * nat))
    (entry : string * list string) : option (list condition * list sql_param * nat) :=
  let '(key, values) := entry in
  match acc with
  | None => None
  | Some (wh, ps, i) =>
      if bool_decide (values = []) then acc   (* continue *)
      else match get_property FIELD_MAP key with
           | own col =>
               Some (wh ++ [LOWER_eq_ANY col i],
                     ps ++ [array_param (map toLowerCase values)],
                     S i)
           | _ => None
           end
  end.

(** [GET /items/search] *)
Definition get_items_search (query : gmap string qval) : response :=
  let qRaw := trim (from_option qval_toString "" (query !! "q")) in
  let qPattern :=
    if bool_decide (qRaw = "") then None
    else Some ("%" +:+ escape_like qRaw +:+ "%") in
  let filters := map (λ k, (k, parseList query k)) filter_keys in
  let start :=
    match qPattern with
    | Some p => ([ILIKE_any 1], [text_param p], 2%nat)
    | None => ([], [], 1%nat)
    end in
  match foldl add_filter (Some start) filters with
  | Some (wh, ps, _) => Search_rows (mkSearch wh ps 200)
  | None => Failure 500 SERVER_ERROR None
  end.

(** ** What the statements select *)

(** The pattern match of the database, [t LIKE p], as its manual defines
    it: [%] stands for any run of characters, [_] for any one character,
    and a backslash takes the next character of the pattern literally.  (A
    pattern that ends in a lone backslash is refused by the database; the
    patterns of the search end in [%], so that case does not arise, and it
    matches nothing here.) *)
Fixpoint like (p t : string) {struct p} : bool :=
  match p with
  | EmptyString => bool_decide (t = EmptyString)
  | String c p' =>
      if Ascii.eqb c "%" then
        (fix any (t : string) : bool :=
           like p' t || match t with
                        | EmptyString => false
                        | String _ t' => any t'
                        end) t
      else if Ascii.eqb c "_" then
        match t with
        | EmptyString => false
        | String _ t' => like p' t'
        end
      else if Ascii.eqb c "\" then
        match p' with
        | EmptyString => false
        | String e p'' =>
            match t with
            | EmptyString => false
            | String c' t' => Ascii.eqb e c' && like p'' t'
            end
        end
      else
        match t with
        | EmptyString => false
        | String c' t' => Ascii.eqb c c' && like p' t'
        end
  end.

(** [t ILIKE p]: the same match with the case of letters ignored. *)
Definition ilike (t p : string) : bool :=
  like (toLowerCase p) (toLowerCase t).

(** [needle] occurs in [t] as a run of consecutive characters. *)
Fixpoint contains (needle t : string) : bool :=
  String.prefix needle t ||
  match t with
  | EmptyString => false
  | String _ t' => contains needle t'
  end.

Section Rows.

(** The text the database prints for a number and for a timestamp
    ([CAST(... AS TEXT)]). *)
Variable text_of_number : number → string.
Variable text_of_timestamp : string → string.

(** The twelve expressions of the free-text disjunction. *)
Definition searched_columns (it : item) : list (option string) :=
  [ Some (ScannedCode it); Brand it; Some (Model it); Size it; Color it;
    Notes it; SoldOrderNum it; PurchasedFrom it;
    text_of_number <$> PaintThickness it;
    text_of_number <$> Price it;
    text_of_number <$> Qty it;
    Some (text_of_timestamp (InventoryDate it)) ].

Definition column_value (col : column) (it : item) : option string :=
  match col with
  | col_Brand => Brand it
  | col_Model => Some (Model it)
  | col_Size => Size it
  | col_Color => Color it
  | col_PurchasedFrom => PurchasedFrom it
  | col_ScannedCode => Some (ScannedCode it)
  | col_Notes => Notes it
  | col_SoldOrderNum => SoldOrderNum it
  end.

(** One conjunct on one row; a comparison with [NULL] is not true. *)
Definition holds (ps : list sql_param) (it : item) (c : condition) : bool :=
  match c with
  | ILIKE_any i =>
      match ps !! pred i with
      | Some (text_param p) =>
          existsb (λ v, from_option (λ t, ilike t p) false v) (searched_columns it)
      | _ => false
      end
  | LOWER_eq_ANY col i =>
      match ps !! pred i with
      | Some (array_param l) =>
          from_option (λ t, bool_decide (toLowerCase t ∈ l)) false (column_value col it)
      | _ => false
      end
  end.

(** The row passes the [WHERE] clause of the statement. *)
Definition selects (st : search_statement) (it : item) : bool :=
  forallb (holds (params st) it) (where_ st).

End Rows.

(** ** The remove-confirmation dialog of the web client *)

Module ScanSession.

Inductive Mode : Type := idle | add | remove | search.

Inductive toast_message : Type :=
  | toast_confirm_removal                            (* 'Confirm removal' *)
  | toast_out_of_stock                               (* 'Already out of stock.' *)
  | toast_failed_to_remove                           (* 'Failed to remove' *)
  | toast_removed (name : string) (onHand : option Z) (* 'Removed 1: ... New on-hand: ...' *)
  | toast_remove_failed.                             (* 'Remove failed' *)

(** [confirmRemove]: what [CONFIRM_REQUIRED] answered. *)
Record pending_removal : Type := mkPending {
  item   : initiate_item;
  onHand : Z
}.

Record session : Type := mkSession {
  mode          : Mode;
  toast         : toast_message;
  scanInput     : string;
  confirmRemove : option pending_removal
}.

(** The inputs of the dialog. *)
Record dialog : Type := mkDialog {
  orderId_input     : string;
  whereBought_input : string;
  dateSub_input     : string
}.

(** The object the dialog hands to [onConfirm]. *)
Record payload : Type := mkPayload {
  payload_Order_Id          : option string;
  payload_Where_bought_from : option string;
  payload_Date_Subtracted   : option date_text
}.

Inductive button : Type := No | Yes.

(** [s || null] *)
Definition or_null (s : string) : option string :=
  if bool_decide (s = "") then None else Some s.

(** [`${(item.Brand ?? '').trim()} ${item.Model}`.trim()] *)
Definition displayName (it : initiate_item) : string :=
  trim (trim (coalesce (ii_Brand it) "") +:+ " " +:+ ii_Model it).

(** [data.onHand] of a 2xx answer. *)
Definition onHand_field (r : response) : option Z :=
  match r with
  | REMOVED _ q _ => Some q
  | CONFIRM_REQUIRED _ q => Some q
  | REGISTERED_ZERO_STOCK _ => Some 0
  | _ => None
  end.

(** What a handler does up to its first [await]: the state it sets and the
    requests it sends. *)
Definition handler : Type := session → session * list request.

Section Dialog.

(** [new Date(local).toISOString()]: depends on the time zone of the
    browser.  Its result is the ISO 8601 text of an instant, which the
    database reads as a timestamp. *)
Variable toISOString : string → string.

(** The two buttons of [ConfirmRemoveModal]. *)
Definition ConfirmRemoveModal (onCancel : handler) (onConfirm : payload → handler)
    (f : dialog) (b : button) : handler :=
  match b with
  | No => onCancel
  | Yes =>
      onConfirm
        {| payload_Order_Id := or_null (orderId_input f);
           payload_Where_bought_from := or_null (whereBought_input f);
           payload_Date_Subtracted :=
             if bool_decide (dateSub_input f = "") then None
             else Some (timestamptz (toISOString (dateSub_input f))) |}
  end.

End Dialog.

(** [onCancel={() => setConfirmRemove(null)}] *)
Definition onCancel : handler :=
  λ s, ({| mode := mode s; toast := toast s; scanInput := scanInput s;
           confirmRemove := None |}, []).

(** The rest of [onConfirm], once the request is answered ([Some r]) or
    has thrown ([None]); the [finally] block closes the dialog. *)
Definition onConfirm_settle (answer : option response) : session → session :=
  λ s,
  let t :=
    match answer, confirmRemove s with
    | Some (Failure _ OUT_OF_STOCK _), _ => toast_out_of_stock
    | Some (Failure _ _ _), _ => toast_failed_to_remove
    | Some r, Some cr => toast_removed (displayName (item cr)) (onHand_field r)
    | _, _ => toast_remove_failed
    end in
  {| mode := mode s; toast := t; scanInput := ""; confirmRemove := None |}.

End ScanSession.

(** [src/web/src/ui/App.tsx]: [onConfirm={async () => ...}], the body of the
    request is [{ barcode: confirmRemove.item.ScannedCode }]. *)
Module App.
Import ScanSession.

Definition onConfirm (_ : payload) : handler :=
  λ s,
  match confirmRemove s with
  | Some cr =>
      (s, [POST_inventory_remove_confirm
             {| barcode := Some (ii_ScannedCode (item cr));
                orderId := None; whereBoughtFrom := None; dateSubtracted := None |}])
  | None => (onConfirm_settle None s, [])
  end.

End App.

(** The other copy of the client (the one with the mobile layout):
    [onConfirm={async (extra) => ...}], the body of the request is
    [{ barcode: confirmRemove.item.ScannedCode, ...extra }]. *)
Module AppMobile.
Import ScanSession.

Definition onConfirm (extra : payload) : handler :=
  λ s,
  match confirmRemove s with
  | Some cr =>
      (s, [POST_inventory_remove_confirm
             {| barcode := Some (ii_ScannedCode (item cr));
                orderId := payload_Order_Id extra;
                whereBoughtFrom := payload_Where_bought_from extra;
                dateSubtracted := payload_Date_Subtracted extra |}])
  | None => (onConfirm_settle None s, [])
  end.

End AppMobile.

(** ** Notions the properties are stated with *)

(** No row of the ledger holds a negative quantity. *)
Definition ledger_nonneg (d : db) : Prop :=
  ∀ i q, inventory_onhand d !! i = Some q → 0 ≤ q.

(** Identifiers of the catalog: each was issued by the generator, and no
    two scan codes share one. *)
Record db_wf (d : db) : Prop := mkWf {
  wf_issued : ∀ c it, items d !! c = Some it → (item_id it < next_id d)%N;
  wf_distinct : ∀ c1 c2 it1 it2,
      items d !! c1 = Some it1 → items d !! c2 = Some it2 →
      item_id it1 = item_id it2 → c1 = c2
}.

(** A call that added one unit of [code]: [POST /inventory/add] answered 201. *)
Definition is_added (code : string) (call : request * response) : bool :=
  match call with
  | (POST_inventory_add c, Created_add _ _ _) => bool_decide (c = Some code)
  | _ => false
  end.

(** A call that removed one unit of [code]: [POST /inventory/remove/confirm]
    answered [REMOVED]. *)
Definition is_removed (code : string) (call : request * response) : bool :=
  match call with
  | (POST_inventory_remove_confirm b, REMOVED _ _ _) => bool_decide (barcode b = Some code)
  | _ => false
  end.

(** How many of the calls satisfy [f], given the answers they got. *)
Definition tally (f : request * response → bool)
    (calls : list (string * request)) (answers : list response) : nat :=
  length (filter (λ call, f call = true) (zip (map snd calls) answers)).

(** Any number of [InitiateRemove] calls in a row. *)
Definition initiate_times (n : nat) (barcode : option string) (d : db) : db :=
  Nat.iter n (λ d', (post_inventory_remove_initiate barcode d').1) d.

(** The books of the item [code], whose identifier is [i], after [n] units
    were added and [m] removed. *)
Definition tracks (code : string) (i : N) (d : db) (n m : nat) : Prop :=
  db_wf d
  ∧ (∃ it, items d !! code = Some it ∧ item_id it = i)
  ∧ onHand_of i d = Z.of_nat n - Z.of_nat m
  ∧ length (events_of i add d) = n
  ∧ length (events_of i remove d) = m.

Definition count (b : bool) : nat := if b then 1%nat else 0%nat.

(** A character is an upper-case letter. *)
Definition is_upper (c : ascii) : bool :=
  let n := N_of_ascii c in (65 <=? n)%N && (n <=? 90)%N.

Fixpoint has_upper (s : string) : bool :=
  match s with
  | EmptyString => false
  | String c s' => is_upper c || has_upper s'
  end.

Fixpoint has_char (c : ascii) (s : string) : bool :=
  match s with
  | EmptyString => false
  | String c' s' => Ascii.eqb c c' || has_char c s'
  end.

(** ** A small catalog to run the handlers on *)

Definition widget : item :=
  {| item_id := 0; InventoryDate := "2024-01-01T00:00:00.000Z";
     ScannedCode := "X1"; Brand := Some "Acme"; Model := "Widget";
     Size := None; Color := None; Notes := None; SoldOrderNum := None;
     PurchasedFrom := None; PaintThickness := None; Price := None; Qty := None |}.

(** The catalog holds [widget], with [q] units on hand and no event. *)
Definition widget_db (q : Z) : db :=
  {| items := {[ "X1" := widget ]};
     inventory_onhand := {[ 0%N := q ]};
     inventory_events := [];
     next_id := 1 |}.

(** [{ ScannedCode: "X1", Model: "Widget" }] *)
Definition widget_body : item_body :=
  {| body_InventoryDate := None; body_ScannedCode := Some "X1";
     body_Brand := None; body_Model := Some "Widget"; body_Size := None;
     body_Color := None; body_Notes := None; body_SoldOrderNum := None;
     body_PurchasedFrom := None; body_PaintThickness := num_absent;
     body_Price := num_absent; body_Qty := num_absent |}.

(** [{ barcode: "X1" }] *)
Definition widget_confirm : confirm_body :=
  {| barcode := Some "X1"; orderId := None; whereBoughtFrom := None;
     dateSubtracted := None |}.

(** [widget] with a backslash in its notes. *)
Definition noted_widget : item :=
  {| item_id := 0; InventoryDate := "2024-01-01T00:00:00.000Z";
     ScannedCode := "X1"; Brand := Some "Acme"; Model := "Widget";
     Size := None; Color := None; Notes := Some "shelf A\B";
     SoldOrderNum := None; PurchasedFrom := None;
     PaintThickness := None; Price := None; Qty := None |}.

(** The session while the dialog asks about [widget], two on hand. *)
Definition asking : ScanSession.session :=
  {| ScanSession.mode := ScanSession.remove;
     ScanSession.toast := ScanSession.toast_confirm_removal;
     ScanSession.scanInput := "X1";
     ScanSession.confirmRemove :=
       Some (ScanSession.mkPending
               (mkInitiateItem 0 "X1" (Some "Acme") "Widget" None None) 2) |}.

(** The dialog with its three inputs filled in. *)
Definition filled : ScanSession.dialog :=
  {| ScanSession.orderId_input := "SO-12345";
     ScanSession.whereBought_input := "Website";
     ScanSession.dateSub_input := "2025-01-02T10:00" |}.

(** ** The lookup by scan code, and what holds of the tables *)

(** The answer of [GET /items/:code]: the row, or 404. *)
Inductive item_answer : Type :=
  | Item_row (it : item)                       (* 200 *)
  | Item_failure (status : N) (e : error).

(** [GET /items/:code] *)
Definition get_items_code (code : string) (d : db) : item_answer :=
  match select_item code d with
  | None => Item_failure 404 ITEM_NOT_FOUND
  | Some it => Item_row it
  end.

(** Every item of the catalog has its row in the ledger. *)
Definition ledgered (d : db) : Prop :=
  ∀ c it, items d !! c = Some it → is_Some (inventory_onhand d !! item_id it).

(** Every row of the catalog is stored under its own scan code, and has a
    scan code and a model. *)
Definition keyed (d : db) : Prop :=
  ∀ c it, items d !! c = Some it → ScannedCode it = c ∧ c ≠ "" ∧ Model it ≠ "".

(** The ledger agrees with the event log: what is on hand of an item is what
    was added less what was removed. *)
Definition balanced (d : db) : Prop :=
  ∀ i, onHand_of i d
       = Z.of_nat (length (events_of i add d))
         - Z.of_nat (length (events_of i remove d)).

(** The identifiers in the ledger and in the event log were issued by the
    generator. *)
Definition issued (d : db) : Prop :=
  (∀ i q, inventory_onhand d !! i = Some q → (i < next_id d)%N)
  ∧ (∀ ev, ev ∈ inventory_events d → (ev_item_id ev < next_id d)%N).

(** What a request can do to the tables: nothing; create the ledger row of
    an item; add one unit and log it; remove one unit of an item in stock
    and log it; or write a row of the catalog and create its ledger row. *)
Inductive effect (d : db) : db → Prop :=
  | effect_none : effect d d
  | effect_row c it :
      items d !! c = Some it →
      effect d (ensureOnHandRow (item_id it) d)
  | effect_add c it :
      items d !! c = Some it →
      effect d
        {| items := items d;
           inventory_onhand :=
             <[item_id it := onHand_of (item_id it) d + 1]> (inventory_onhand d);
           inventory_events :=
             inventory_events d ++ [mkEvent (item_id it) add 1 None None None];
           next_id := next_id d |}
  | effect_remove c it q o w t :
      items d !! c = Some it →
      inventory_onhand d !! item_id it = Some q → q > 0 →
      effect d
        {| items := items d;
           inventory_onhand := <[item_id it := q - 1]> (inventory_onhand d);
           inventory_events :=
             inventory_events d ++ [mkEvent (item_id it) remove 1 o w t];
           next_id := next_id d |}
  | effect_upsert now v :
      v_ScannedCode v ≠ "" → v_Model v ≠ "" →
      effect d
        (ensureOnHandRow (item_id (insert_item_on_conflict_update now v d).2)
           (insert_item_on_conflict_update now v d).1).

(** ** What a search means *)

(** The parameter a conjunct reads. *)
Definition cond_index (c : condition) : nat :=
  match c with
  | ILIKE_any i => i
  | LOWER_eq_ANY _ i => i
  end.

(** The conjuncts and the parameters of a statement line up: the k-th
    conjunct reads the parameter of number k+1, which is bound, to a text for
    the free-text conjunct and to a non-empty array for a filter. *)
Definition well_bound (st : search_statement) : Prop :=
  length (where_ st) = length (params st)
  ∧ ∀ k c, where_ st !! k = Some c →
      cond_index c = S k
      ∧ match c with
        | ILIKE_any _ => ∃ p, params st !! k = Some (text_param p)
        | LOWER_eq_ANY _ _ => ∃ l, params st !! k = Some (array_param l) ∧ l ≠ []
        end.

Section Meaning.

Variable text_of_number : number → string.
Variable text_of_timestamp : string → string.

(** The free text of the request, if any, occurs in one of the twelve
    searched columns of the row (as the pattern match of the database has
    it). *)
Definition text_passes (query : gmap string qval) (it : item) : bool :=
  let qRaw := trim (from_option qval_toString "" (query !! "q")) in
  bool_decide (qRaw = "")
  || existsb (λ v, from_option (λ t, ilike t ("%" +:+ escape_like qRaw +:+ "%")) false v)
       (searched_columns text_of_number text_of_timestamp it).

(** Nothing is selected for the field, or the column of the row is, letter
    case aside, one of the values selected. *)
Definition values_pass (key : string) (values : list string) (it : item) : bool :=
  match values with
  | [] => true
  | _ =>
      match FIELD_MAP !! key with
      | Some col =>
          from_option (λ t, bool_decide (toLowerCase t ∈ map toLowerCase values)) false
            (column_value col it)
      | None => false
      end
  end.

Definition field_passes (query : gmap string qval) (it : item) (key : string) : bool :=
  values_pass key (parseList query key) it.

(** The row is wanted by the request: by its free text and by every one of
    its filters. *)
Definition passes (query : gmap string qval) (it : item) : bool :=
  text_passes query it && forallb (field_passes query it) filter_keys.

End Meaning.

(** ** The scan form of the web client *)

(** [handleSubmit], the filter handlers and the two forms of [App.tsx]; the
    two copies of the client agree on them.  A handler that awaits is a
    procedure: the requests it sends, each with what follows on the reply.
    The state holds the fields these handlers use. *)
Module ScanFlow.

(** The build variables that override the action codes. *)
Record env : Type := mkEnv {
  VITE_ADD_ACTION_CODE    : option string;
  VITE_REMOVE_ACTION_CODE : option string;
  VITE_SEARCH_ACTION_CODE : option string
}.

(** [x || dflt] *)
Definition or_default (x : option string) (dflt : string) : string :=
  if falsy x then dflt else param x.

Definition ADD_CODE (e : env) : string := or_default (VITE_ADD_ACTION_CODE e) "##ADD##".
Definition REMOVE_CODE (e : env) : string :=
  or_default (VITE_REMOVE_ACTION_CODE e) "##REMOVE##".
Definition SEARCH_CODE (e : env) : string :=
  or_default (VITE_SEARCH_ACTION_CODE e) "##SEARCH##".

(** [SearchHit]: a row with its quantity on hand. *)
Definition hit : Type := item * Z.

(** The summary line, [Results for "term" - n item(s)]: the term and the
    number of rows; [None] is the empty string. *)
Definition summary : Type := option (string * nat).

Record app : Type := mkApp {
  mode          : ScanSession.Mode;
  toast         : string;
  scanInput     : string;
  pendingItem   : option string;
  confirmRemove : option ScanSession.pending_removal;
  searchTerm    : string;
  results       : list hit;
  searchSummary : summary;
  filters       : gmap string (list string)
}.

(** The answer to [GET /items/:code], as the handler tells the cases apart. *)
Inductive lookup_reply : Type :=
  | Lookup_404
  | Lookup_item (it : item)      (* ok: the row *)
  | Lookup_failed.               (* another status, or the request threw *)

(** The answer to [POST /inventory/remove/initiate]. *)
Inductive initiate_reply : Type :=
  | Initiate_confirm (it : initiate_item) (onHand : Z)   (* CONFIRM_REQUIRED *)
  | Initiate_zero (it : initiate_item)                   (* REGISTERED_ZERO_STOCK *)
  | Initiate_failed.

Inductive proc : Type :=
  | Done (s : app)
  | GET_item (code : string) (k : lookup_reply → proc)
  | GET_search (qs : list (string * string)) (k : option (list hit) → proc)
  | POST_add (barcode : string) (k : bool → proc)          (* reply: [res.ok] *)
  | POST_initiate (barcode : string) (k : initiate_reply → proc)
  | POST_items_form (b : item_body) (k : option item → proc).

(** The [queryKey]s of [FILTERABLE], in order. *)
Definition FILTERABLE : list string :=
  [ "brand"; "model"; "size"; "color"; "purchasedfrom"; "scannedcode";
    "notes"; "soldorder" ].

(** [makeQueryString(term, f)]: the entries of the [URLSearchParams].  A
    selection (a [Set]) is the list of its values in the order they were
    added. *)
Definition makeQueryString (term : string) (f : gmap string (list string))
  : list (string * string) :=
  (if bool_decide (term = "") then [] else [("q", term)])
  ++ omap (λ queryKey,
             match f !! queryKey with
             | Some (v :: sel) => Some (queryKey, String.concat "," (v :: sel))
             | _ => None
             end) FILTERABLE.

(** The query the server reads from these entries (each key occurs once). *)
Definition req_query (qs : list (string * string)) : gmap string qval :=
  list_to_map (map (λ e, (e.1, QStr e.2)) qs).

(** [displayName(item)] on a row of the catalog. *)
Definition displayName (it : item) : string :=
  trim (trim (coalesce (Brand it) "") +:+ " " +:+ Model it).

(** [runSearch(term, f)], then [rest] on the state with the rows set; the
    failure goes to [failed]. *)
Definition runSearch (term : string) (f : gmap string (list string)) (s : app)
    (rest : app → app) (failed : app → app) : proc :=
  GET_search (makeQueryString term f)
    (λ reply,
       match reply with
       | Some data =>
           Done (rest {| mode := mode s; toast := toast s; scanInput := scanInput s;
                         pendingItem := pendingItem s;
                         confirmRemove := confirmRemove s;
                         searchTerm := searchTerm s; results := data;
                         searchSummary := Some (term, length data);
                         filters := filters s |})
       | None => Done (failed s)
       end).

Definition set_toast (t : string) (s : app) : app :=
  {| mode := mode s; toast := t; scanInput := scanInput s;
     pendingItem := pendingItem s; confirmRemove := confirmRemove s;
     searchTerm := searchTerm s; results := results s;
     searchSummary := searchSummary s; filters := filters s |}.

Definition set_scanInput (x : string) (s : app) : app :=
  {| mode := mode s; toast := toast s; scanInput := x;
     pendingItem := pendingItem s; confirmRemove := confirmRemove s;
     searchTerm := searchTerm s; results := results s;
     searchSummary := searchSummary s; filters := filters s |}.

(** A mode code: the mode, its toast, and the input and the rows cleared. *)
Definition enter (m : ScanSession.Mode) (t : string) (s : app) : app :=
  {| mode := m; toast := t; scanInput := "";
     pendingItem := pendingItem s; confirmRemove := confirmRemove s;
     searchTerm := searchTerm s; results := []; searchSummary := None;
     filters := filters s |}.

(** [handleSubmit] *)
Definition handleSubmit (e : env) (s : app) : proc :=
  let code := trim (scanInput s) in
  if bool_decide (code = "") then Done s
  else if bool_decide (code = ADD_CODE e) then
    Done (enter ScanSession.add "Add mode enabled." s)
  else if bool_decide (code = REMOVE_CODE e) then
    Done (enter ScanSession.remove "Remove mode enabled." s)
  else if bool_decide (code = SEARCH_CODE e) then
    Done (let s1 := enter ScanSession.search "Search mode enabled." s in
          {| mode := mode s1; toast := toast s1; scanInput := scanInput s1;
             pendingItem := pendingItem s1; confirmRemove := confirmRemove s1;
             searchTerm := ""; results := results s1;
             searchSummary := searchSummary s1; filters := filters s1 |})
  else
    match mode s with
    | ScanSession.idle =>
        Done (set_scanInput ""
                (set_toast ("No mode selected. Scan " +:+ ADD_CODE e +:+ ", "
                            +:+ REMOVE_CODE e +:+ ", or " +:+ SEARCH_CODE e
                            +:+ " first.") s))
    | ScanSession.search =>
        let s1 :=
          {| mode := mode s; toast := toast s; scanInput := scanInput s;
             pendingItem := pendingItem s; confirmRemove := confirmRemove s;
             searchTerm := code; results := results s;
             searchSummary := searchSummary s; filters := filters s |} in
        runSearch code (filters s) s1
          (λ s2, set_scanInput "" (set_toast "" s2))
          (set_toast "Error processing")
    | m =>
        GET_item code
          (λ reply,
             match reply with
             | Lookup_404 =>
                 Done (set_scanInput ""
                         (set_toast "Unknown item. Please create it."
                            {| mode := mode s; toast := toast s;
                               scanInput := scanInput s;
                               pendingItem := Some code;
                               confirmRemove := confirmRemove s;
                               searchTerm := searchTerm s; results := results s;
                               searchSummary := searchSummary s;
                               filters := filters s |}))
             | Lookup_failed => Done (set_toast "Error processing" s)
             | Lookup_item it =>
                 match m with
                 | ScanSession.add =>
                     POST_add (ScannedCode it)
                       (λ ok,
                          if ok
                          then Done (set_scanInput ""
                                       (set_toast ("Added: " +:+ displayName it) s))
                          else Done (set_toast "Error processing" s))
                 | _ =>
                     POST_initiate (ScannedCode it)
                       (λ r,
                          match r with
                          | Initiate_confirm it' q =>
                              Done (set_toast "Confirm removal"
                                      {| mode := mode s; toast := toast s;
                                         scanInput := scanInput s;
                                         pendingItem := pendingItem s;
                                         confirmRemove :=
                                           Some (ScanSession.mkPending it' q);
                                         searchTerm := searchTerm s;
                                         results := results s;
                                         searchSummary := searchSummary s;
                                         filters := filters s |})
                          | Initiate_zero it' =>
                              Done (set_scanInput ""
                                      (set_toast
                                         (ScanSession.displayName it'
                                          +:+ " is not in stock (registered at 0).")
                                         s))
                          | Initiate_failed => Done (set_toast "Error processing" s)
                          end)
                 end
             end)
    end.

(** A procedure, then another on the state it ends in. *)
Fixpoint bind (p : proc) (f : app → proc) : proc :=
  match p with
  | Done s => f s
  | GET_item code k => GET_item code (λ r, bind (k r) f)
  | GET_search qs k => GET_search qs (λ r, bind (k r) f)
  | POST_add b k => POST_add b (λ r, bind (k r) f)
  | POST_initiate b k => POST_initiate b (λ r, bind (k r) f)
  | POST_items_form b k => POST_items_form b (λ r, bind (k r) f)
  end.

(** [useEffect(() => { if (mode === 'search') runSearch('').catch(...) },
    [mode])]: runs when the mode rendered is not the mode rendered [before];
    the failure is only logged. *)
Definition mode_effect (before : ScanSession.Mode) (s : app) : proc :=
  match mode s, before with
  | ScanSession.search, ScanSession.search => Done s
  | ScanSession.search, _ => runSearch "" (filters s) s (λ s1, s1) (λ s1, s1)
  | _, _ => Done s
  end.

(** A scan: [handleSubmit], and the effect on the mode once its state is
    rendered. *)
Definition scan (e : env) (s : app) : proc :=
  bind (handleSubmit e s) (mode_effect (mode s)).

(** A value toggled in a selection: deleted when it is there, added at the
    end when it is not. *)
Definition toggle (value : string) (sel : list string) : list string :=
  if bool_decide (value ∈ sel) then filter (λ x, x ≠ value) sel
  else sel ++ [value].

(** The filters stored, and the search sent with them and with the last
    text searched; a failed search is only logged. *)
Definition apply_filters (next : gmap string (list string)) (s : app) : proc :=
  let s1 :=
    {| mode := mode s; toast := toast s; scanInput := scanInput s;
       pendingItem := pendingItem s; confirmRemove := confirmRemove s;
       searchTerm := searchTerm s; results := results s;
       searchSummary := searchSummary s; filters := next |} in
  runSearch (searchTerm s) next s1 (λ s2, s2) (λ s2, s2).

(** [toggleFilter(queryKey, value)] *)
Definition toggleFilter (queryKey value : string) (s : app) : proc :=
  apply_filters
    (<[queryKey := toggle value (default [] (filters s !! queryKey))]> (filters s)) s.

(** [clearFilter(queryKey)] *)
Definition clearFilter (queryKey : string) (s : app) : proc :=
  apply_filters (<[queryKey := []]> (filters s)) s.

(** [clearAllFilters()] *)
Definition clearAllFilters (s : app) : proc := apply_filters ∅ s.

(** [onCreated(item)] of the form for a new item. *)
Definition onCreated (it : item) (s : app) : proc :=
  let s1 :=
    {| mode := mode s; toast := toast s; scanInput := scanInput s;
       pendingItem := None; confirmRemove := confirmRemove s;
       searchTerm := searchTerm s; results := results s;
       searchSummary := searchSummary s; filters := filters s |} in
  match mode s with
  | ScanSession.add =>
      POST_add (ScannedCode it)
        (λ ok,
           if ok
           then Done (set_scanInput ""
                        (set_toast ("Item created and added: " +:+ displayName it) s1))
           else Done (set_toast "Post-create action failed" s1))
  | ScanSession.remove =>
      Done (set_scanInput ""
              (set_toast ("Item created and registered with quantity 0: "
                          +:+ displayName it) s1))
  | _ => Done s1
  end.

(** The inputs of [NewItemModal]. *)
Record new_item_form : Type := mkForm {
  form_InventoryDate  : string;
  form_ScannedCode    : string;
  form_Brand          : string;
  form_Model          : string;
  form_Size           : string;
  form_Color          : string;
  form_Notes          : string;
  form_SoldOrder      : string;
  form_PurchasedFrom  : string;
  form_PaintThickness : string;
  form_Price          : string;
  form_Qty            : string
}.

Section NewItem.

(** [new Date(local).toISOString()], which throws on a text that is no
    date, and [Number(text)] as it arrives in the body: a number, or [null]
    for what is not a number. *)
Variable toISOString : string → option string.
Variable Number : string → option number.

(** [X !== '' ? Number(X) : null] *)
Definition numeric_input (x : string) : numeric_field :=
  if bool_decide (x = "") then num_absent
  else match Number x with
       | Some n => num_value n
       | None => num_absent
       end.

(** The payload of [submit]; [None] when the date throws. *)
Definition payload (f : new_item_form) : option item_body :=
  match toISOString (form_InventoryDate f) with
  | None => None
  | Some invISO =>
      Some {| body_InventoryDate := Some invISO;
              body_ScannedCode := Some (trim (form_ScannedCode f));
              body_Brand := ScanSession.or_null (form_Brand f);
              body_Model := Some (trim (form_Model f));
              body_Size := ScanSession.or_null (form_Size f);
              body_Color := ScanSession.or_null (form_Color f);
              body_Notes := ScanSession.or_null (form_Notes f);
              body_SoldOrderNum := ScanSession.or_null (form_SoldOrder f);
              body_PurchasedFrom := ScanSession.or_null (form_PurchasedFrom f);
              body_PaintThickness := numeric_input (form_PaintThickness f);
              body_Price := numeric_input (form_Price f);
              body_Qty := numeric_input (form_Qty f) |}
  end.

(** [submit] of [NewItemModal]: the catalog write, then [onCreated] with the
    row answered; a failure only raises an alert. *)
Definition submit (f : new_item_form) (s : app) : proc :=
  match payload f with
  | None => Done s
  | Some b =>
      POST_items_form b
        (λ reply,
           match reply with
           | Some it => onCreated it s
           | None => Done s
           end)
  end.

End NewItem.

(** The requests a procedure may send, over all the replies it may get. *)
Inductive sends : proc → proc → Prop :=
  | sends_here p : sends p p
  | sends_item code k r q : sends (k r) q → sends (GET_item code k) q
  | sends_search qs k r q : sends (k r) q → sends (GET_search qs k) q
  | sends_add b k r q : sends (k r) q → sends (POST_add b k) q
  | sends_initiate b k r q : sends (k r) q → sends (POST_initiate b k) q
  | sends_items b k r q : sends (k r) q → sends (POST_items_form b k) q.

(** The states a procedure may end in. *)
Definition ends_in (p : proc) (s : app) : Prop := sends p (Done s).


(** The text is one of the three action codes. *)
Definition is_code (e : env) (code : string) : Prop :=
  code = ADD_CODE e ∨ code = REMOVE_CODE e ∨ code = SEARCH_CODE e.

(** No override of the action codes. *)
Definition no_env : env := mkEnv None None None.

(** The form after a scan of [x] in mode [m], nothing pending. *)
Definition scanning (m : ScanSession.Mode) (x : string) : app :=
  {| mode := m; toast := ""; scanInput := x; pendingItem := None;
     confirmRemove := None; searchTerm := ""; results := [];
     searchSummary := None; filters := ∅ |}.

End ScanFlow.

(** * Properties *)

(** ** The statements, one by one *)

Section Statements.

Implicit Types (d : db) (i j : N) (q delta : Z).

Lemma ensure_items i d : items (ensureOnHandRow i d) = items d.
Proof. unfold ensureOnHandRow. by destruct (inventory_onhand d !! i). Qed.

Lemma ensure_events i d : inventory_events (ensureOnHandRow i d) = inventory_events d.
Proof. unfold ensureOnHandRow. by destruct (inventory_onhand d !! i). Qed.

Lemma ensure_next_id i d : next_id (ensureOnHandRow i d) = next_id d.
Proof. unfold ensureOnHandRow. by destruct (inventory_onhand d !! i). Qed.

Lemma ensure_present i d q :
  inventory_onhand d !! i = Some q → ensureOnHandRow i d = d.
Proof. unfold ensureOnHandRow. by intros ->. Qed.

Lemma ensure_absent i d :
  inventory_onhand d !! i = None →
  inventory_onhand (ensureOnHandRow i d) = <[i := 0]> (inventory_onhand d).
Proof. unfold ensureOnHandRow. by intros ->. Qed.

Lemma ensure_lookup i d :
  inventory_onhand (ensureOnHandRow i d) !! i = Some (onHand_of i d).
Proof.
  unfold ensureOnHandRow, onHand_of.
  destruct (inventory_onhand d !! i) as [q|] eqn:E; simpl.
  - by rewrite E.
  - by rewrite lookup_insert_eq.
Qed.

Lemma ensure_lookup_ne i j d :
  i ≠ j → inventory_onhand (ensureOnHandRow i d) !! j = inventory_onhand d !! j.
Proof.
  intros Hne. unfold ensureOnHandRow.
  destruct (inventory_onhand d !! i); simpl; [done|].
  by rewrite lookup_insert_ne.
Qed.

Lemma ensure_onHand_of i j d : onHand_of j (ensureOnHandRow i d) = onHand_of j d.
Proof.
  destruct (decide (i = j)) as [->|Hne].
  - unfold onHand_of at 1. by rewrite ensure_lookup.
  - unfold onHand_of. by rewrite ensure_lookup_ne.
Qed.

Lemma ensure_nonneg i d : ledger_nonneg d → ledger_nonneg (ensureOnHandRow i d).
Proof.
  intros Hd j q. destruct (decide (i = j)) as [->|Hne].
  - rewrite ensure_lookup. intros [= <-]. unfold onHand_of.
    destruct (inventory_onhand d !! j) as [q'|] eqn:E; simpl; [by eapply Hd|lia].
  - rewrite ensure_lookup_ne by done. apply Hd.
Qed.

Lemma update_lookup delta i d q :
  inventory_onhand d !! i = Some q →
  inventory_onhand (update_on_hand delta i d) !! i = Some (q + delta).
Proof. intros E. simpl. by rewrite lookup_alter_eq, E. Qed.

Lemma update_lookup_ne delta i j d :
  i ≠ j → inventory_onhand (update_on_hand delta i d) !! j = inventory_onhand d !! j.
Proof. intros Hne. simpl. by rewrite lookup_alter_ne. Qed.

Lemma update_insert delta i d q :
  inventory_onhand d !! i = Some q →
  inventory_onhand (update_on_hand delta i d) = <[i := q + delta]> (inventory_onhand d).
Proof.
  intros E. apply map_eq. intros j. destruct (decide (i = j)) as [<-|Hne].
  - by rewrite (update_lookup _ _ _ q), lookup_insert_eq.
  - by rewrite update_lookup_ne, lookup_insert_ne.
Qed.

Lemma events_of_app i a d ev :
  events_of i a (insert_event ev d).1 =
  events_of i a d ++ (if decide (ev_item_id ev = i ∧ ev_action ev = a) then [ev] else []).
Proof.
  unfold events_of. simpl. by rewrite filter_app.
Qed.

Lemma falsy_false (x : option string) :
  falsy x = false ↔ ∃ s, x = Some s ∧ s ≠ "".
Proof.
  destruct x as [s|]; simpl.
  - rewrite bool_decide_eq_false. split.
    + intros Hs. by exists s.
    + by intros (s' & [= ->] & Hs).
  - split; [done|]. by intros (s' & Hs & _).
Qed.

Lemma falsy_true (x : option string) :
  falsy x = true ↔ x = None ∨ x = Some "".
Proof.
  destruct x as [s|]; simpl.
  - rewrite bool_decide_eq_true. split.
    + intros ->. by right.
    + by intros [Hs|[= ->]].
  - split; [by left|done].
Qed.

Lemma falsy_code (code : string) : code ≠ "" → falsy (Some code) = false.
Proof. intros Hne. apply falsy_false. by exists code. Qed.

End Statements.

(** ** Requests without a barcode *)

(** C10. A request to [/inventory/add], [/inventory/remove/initiate] or
    [/inventory/remove/confirm] whose body has no barcode (absent, [null] or
    the empty string) is answered 400 [MISSING_BARCODE]; no statement is run,
    so the catalog, the ledger and the event log are the ones before the
    request, whatever they hold. *)
Theorem missing_barcode_is_rejected (now : string) (b : confirm_body) (d : db) :
  barcode b = None ∨ barcode b = Some "" →
  post_inventory_add (barcode b) d = (d, Failure 400 MISSING_BARCODE None)
  ∧ post_inventory_remove_initiate (barcode b) d = (d, Failure 400 MISSING_BARCODE None)
  ∧ post_inventory_remove_confirm now b d = (d, Failure 400 MISSING_BARCODE None).
Proof.
  intros Hb. apply falsy_true in Hb.
  unfold post_inventory_add, post_inventory_remove_initiate,
    post_inventory_remove_confirm.
  by rewrite Hb.
Qed.

Lemma missing_barcode_is_rejected_witness :
  let b := mkConfirmBody (Some "") (Some "SO-1") None None in
  post_inventory_add (barcode b) empty_db = (empty_db, Failure 400 MISSING_BARCODE None)
  ∧ post_inventory_remove_initiate (barcode b) empty_db
    = (empty_db, Failure 400 MISSING_BARCODE None)
  ∧ post_inventory_remove_confirm "2025-01-01T00:00:00Z" b empty_db
    = (empty_db, Failure 400 MISSING_BARCODE None).
Proof.
  intros b.
  apply (missing_barcode_is_rejected "2025-01-01T00:00:00Z" b empty_db).
  right. reflexivity.
Defined.

(** ** Confirming a removal *)

(** What a confirmation does when the item is in stock and the date of the
    body, if it has one, is a timestamp. *)
Lemma confirm_in_stock (now : string) (b : confirm_body) (code : string) (d : db)
    (it : item) (q : Z) (date : string) :
  barcode b = Some code → code ≠ "" →
  items d !! code = Some it →
  inventory_onhand d !! item_id it = Some q → q > 0 →
  date_subtracted (dateSubtracted b) now = Some date →
  let ev := mkEvent (item_id it) remove 1 (orderId b) (whereBoughtFrom b)
                    (Some date) in
  post_inventory_remove_confirm now b d =
    ({| items := items d;
        inventory_onhand := <[item_id it := q - 1]> (inventory_onhand d);
        inventory_events := inventory_events d ++ [ev];
        next_id := next_id d |},
     REMOVED None (q - 1) ev).
Proof.
  intros Hb Hne Hit Hq Hpos Hdate ev.
  unfold post_inventory_remove_confirm, transaction, select_item, select_on_hand.
  rewrite Hb, (falsy_code _ Hne). simpl. rewrite Hit, Hq.
  rewrite bool_decide_eq_false_2 by lia. rewrite Hdate.
  pose proof (update_insert (-1) _ d q Hq) as Hu. simpl in Hu.
  unfold insert_event. simpl. rewrite Hu.
  by replace (q + -1) with (q - 1) by lia.
Qed.

(** With a date that is no timestamp the INSERT of the event fails: the
    decrement is rolled back and the answer is 500. *)
Lemma confirm_refused_date (now : string) (b : confirm_body) (code : string)
    (d : db) (it : item) (q : Z) :
  barcode b = Some code → code ≠ "" →
  items d !! code = Some it →
  inventory_onhand d !! item_id it = Some q → q > 0 →
  date_subtracted (dateSubtracted b) now = None →
  post_inventory_remove_confirm now b d = (d, Failure 500 SERVER_ERROR None).
Proof.
  intros Hb Hne Hit Hq Hpos Hdate.
  unfold post_inventory_remove_confirm, transaction, select_item, select_on_hand.
  rewrite Hb, (falsy_code _ Hne). simpl. rewrite Hit, Hq.
  rewrite bool_decide_eq_false_2 by lia. by rewrite Hdate.
Qed.

(** The handler, when the row read under the lock holds 0 or less. *)
Lemma confirm_out_of_stock_outcome (now : string) (b : confirm_body)
    (code : string) (d : db) (it : item) (q : Z) :
  barcode b = Some code → code ≠ "" →
  items d !! code = Some it →
  inventory_onhand d !! item_id it = Some q → q ≤ 0 →
  post_inventory_remove_confirm now b d = (d, Failure 409 OUT_OF_STOCK (Some 0)).
Proof.
  intros Hb Hne Hit Hq Hle.
  unfold post_inventory_remove_confirm, transaction, select_item, select_on_hand.
  rewrite Hb, (falsy_code _ Hne). simpl. rewrite Hit, Hq.
  by rewrite bool_decide_eq_true_2 by lia.
Qed.

(** C1. When the row of the item read under the lock holds a quantity of 0
    or less, [ConfirmRemove] answers 409 [OUT_OF_STOCK] and the whole
    database, hence the on-hand quantity and the event log, is what it was
    before the call, whatever else the request holds. *)
Theorem confirm_out_of_stock_changes_nothing (now : string) (b : confirm_body)
    (code : string) (d : db) (it : item) (q : Z) :
  barcode b = Some code → code ≠ "" →
  items d !! code = Some it →
  inventory_onhand d !! item_id it = Some q → q ≤ 0 →
  post_inventory_remove_confirm now b d = (d, Failure 409 OUT_OF_STOCK (Some 0)).
Proof.
  intros Hb Hne Hit Hq Hle. by eapply confirm_out_of_stock_outcome.
Qed.

(** The handler refuses likewise, without a change, when the ledger has no
    row for the item. *)
Lemma confirm_without_row_changes_nothing (now : string) (b : confirm_body)
    (code : string) (d : db) (it : item) :
  barcode b = Some code → code ≠ "" →
  items d !! code = Some it →
  inventory_onhand d !! item_id it = None →
  post_inventory_remove_confirm now b d = (d, Failure 409 OUT_OF_STOCK (Some 0)).
Proof.
  intros Hb Hne Hit Hq.
  unfold post_inventory_remove_confirm, transaction, select_item, select_on_hand.
  rewrite Hb, (falsy_code _ Hne). simpl. by rewrite Hit, Hq.
Qed.

(** C9. [ConfirmRemove] is a function of the request, of the clock and of
    the tables alone: there is nothing in which an earlier [InitiateRemove]
    could be remembered.  So in any state of the tables, however it came
    about, a confirmation for an item with on-hand quantity [q > 0], whose
    date (if the body has one) is a timestamp, is answered [REMOVED] with
    [q - 1]; the ledger row then holds [q - 1], and one remove event, with
    that date or else the time of the clock, is appended.  (A date that is
    no timestamp fails the INSERT of the event: [confirm_refused_date].) *)
Theorem confirm_needs_no_initiate (now : string) (b : confirm_body) (code : string)
    (d : db) (it : item) (q : Z) (date : string) :
  barcode b = Some code → code ≠ "" →
  items d !! code = Some it →
  inventory_onhand d !! item_id it = Some q → q > 0 →
  date_subtracted (dateSubtracted b) now = Some date →
  ∃ ev d',
    post_inventory_remove_confirm now b d = (d', REMOVED None (q - 1) ev)
    ∧ inventory_onhand d' !! item_id it = Some (q - 1)
    ∧ (∀ j, j ≠ item_id it → inventory_onhand d' !! j = inventory_onhand d !! j)
    ∧ inventory_events d' = inventory_events d ++ [ev]
    ∧ ev_item_id ev = item_id it ∧ ev_action ev = remove ∧ ev_qty ev = 1
    ∧ Date_Subtracted ev = Some date
    ∧ items d' = items d.
Proof.
  intros Hb Hne Hit Hq Hpos Hdate.
  eexists _, _. split; [by eapply confirm_in_stock|]. simpl.
  rewrite lookup_insert_eq. repeat split; try done.
  intros j Hj. by rewrite lookup_insert_ne.
Qed.

Lemma confirm_out_of_stock_changes_nothing_witness :
  post_inventory_remove_confirm "2025-01-01T00:00:00Z" widget_confirm (widget_db 0)
    = (widget_db 0, Failure 409 OUT_OF_STOCK (Some 0)).
Proof.
  apply (confirm_out_of_stock_changes_nothing
           "2025-01-01T00:00:00Z" widget_confirm "X1" (widget_db 0) widget 0).
  - reflexivity.
  - discriminate.
  - vm_compute; reflexivity.
  - vm_compute; reflexivity.
  - lia.
Defined.

Lemma confirm_needs_no_initiate_witness :
  let b := mkConfirmBody (Some "X1") (Some "SO-12345") None
                         (Some (timestamptz "2024-12-31T10:00:00.000Z")) in
  ∃ ev d',
    post_inventory_remove_confirm "2025-01-01T00:00:00Z" b (widget_db 3)
      = (d', REMOVED None (3 - 1) ev)
    ∧ inventory_onhand d' !! item_id widget = Some (3 - 1)
    ∧ (∀ j, j ≠ item_id widget →
         inventory_onhand d' !! j = inventory_onhand (widget_db 3) !! j)
    ∧ inventory_events d' = inventory_events (widget_db 3) ++ [ev]
    ∧ ev_item_id ev = item_id widget ∧ ev_action ev = remove ∧ ev_qty ev = 1
    ∧ Date_Subtracted ev = Some "2024-12-31T10:00:00.000Z"
    ∧ items d' = items (widget_db 3).
Proof.
  intros b.
  apply (confirm_needs_no_initiate
           "2025-01-01T00:00:00Z" b "X1" (widget_db 3) widget 3
           "2024-12-31T10:00:00.000Z").
  - reflexivity.
  - discriminate.
  - vm_compute; reflexivity.
  - vm_compute; reflexivity.
  - lia.
  - reflexivity.
Defined.

(** ** Initiating a removal *)

(** What [InitiateRemove] does for an item of the catalog. *)
Lemma initiate_found (code : string) (d : db) (it : item) :
  code ≠ "" → items d !! code = Some it →
  post_inventory_remove_initiate (Some code) d =
    (ensureOnHandRow (item_id it) d,
     let view := mkInitiateItem (item_id it) (ScannedCode it) (Brand it)
                                (Model it) (Color it) (Size it) in
     if bool_decide (onHand_of (item_id it) d > 0)
     then CONFIRM_REQUIRED view (onHand_of (item_id it) d)
     else REGISTERED_ZERO_STOCK view).
Proof.
  intros Hne Hit.
  unfold post_inventory_remove_initiate, transaction, select_item, select_on_hand.
  rewrite (falsy_code _ Hne). simpl. rewrite Hit.
  by rewrite ensure_lookup.
Qed.

Lemma initiate_keeps_quantities (barcode : option string) (d : db) (j : N) :
  onHand_of j (post_inventory_remove_initiate barcode d).1 = onHand_of j d
  ∧ inventory_events (post_inventory_remove_initiate barcode d).1 = inventory_events d
  ∧ items (post_inventory_remove_initiate barcode d).1 = items d.
Proof.
  unfold post_inventory_remove_initiate, transaction, select_item, select_on_hand.
  destruct (falsy barcode); [done|].
  destruct (items d !! param barcode) as [it|]; [|done].
  rewrite ensure_lookup. simpl.
  by rewrite ensure_onHand_of, ensure_events, ensure_items.
Qed.

(** C4. For an item of the catalog, [InitiateRemove] leaves every on-hand
    quantity as it was, after one call and after any number of calls; the
    only change it can make is the ledger row of the item, created at 0 when
    it was absent.  It answers [CONFIRM_REQUIRED], with the item and the
    quantity, exactly when the quantity is positive, and
    [REGISTERED_ZERO_STOCK] when the quantity is 0. *)
Theorem initiate_reads_and_reports (code : string) (d : db) (it : item) :
  code ≠ "" → items d !! code = Some it →
  let q := onHand_of (item_id it) d in
  let view := mkInitiateItem (item_id it) (ScannedCode it) (Brand it)
                             (Model it) (Color it) (Size it) in
  let d' := (post_inventory_remove_initiate (Some code) d).1 in
  let answer := (post_inventory_remove_initiate (Some code) d).2 in
  (∀ n j, onHand_of j (initiate_times n (Some code) d) = onHand_of j d)
  ∧ (is_Some (inventory_onhand d !! item_id it) → d' = d)
  ∧ (inventory_onhand d !! item_id it = None →
       d' = {| items := items d;
               inventory_onhand := <[item_id it := 0]> (inventory_onhand d);
               inventory_events := inventory_events d;
               next_id := next_id d |})
  ∧ (answer = CONFIRM_REQUIRED view q ↔ q > 0)
  ∧ ((∃ v q', answer = CONFIRM_REQUIRED v q') ↔ q > 0)
  ∧ (q = 0 → answer = REGISTERED_ZERO_STOCK view).
Proof.
  intros Hne Hit q view d' answer.
  subst d' answer. rewrite (initiate_found code d it Hne Hit). simpl.
  fold q view. repeat split.
  - intros n j. induction n as [|n IH]; [done|].
    unfold initiate_times in *. simpl.
    by rewrite (proj1 (initiate_keeps_quantities _ _ _)).
  - intros [q0 Hq0]. by eapply ensure_present.
  - intros Hnone. unfold ensureOnHandRow. by rewrite Hnone.
  - case_bool_decide; [done|discriminate].
  - case_bool_decide; [done|]. done.
  - intros (v & q' & Hans). case_bool_decide; [done|discriminate].
  - intros Hpos. rewrite bool_decide_eq_true_2 by done. by eexists _, _.
  - intros Hq. by rewrite bool_decide_eq_false_2 by lia.
Qed.

Lemma initiate_reads_and_reports_witness :
  (post_inventory_remove_initiate (Some "X1") (widget_db 2)).2
  = CONFIRM_REQUIRED (mkInitiateItem 0 "X1" (Some "Acme") "Widget" None None) 2
  ∧ onHand_of 0 (initiate_times 5 (Some "X1") (widget_db 2)) = 2.
Proof.
  pose proof (initiate_reads_and_reports "X1" (widget_db 2) widget) as H.
  destruct H as (Hsame & _ & _ & Hconfirm & _).
  - discriminate.
  - vm_compute; reflexivity.
  - split.
    + apply Hconfirm. vm_compute; reflexivity.
    + rewrite Hsame. vm_compute; reflexivity.
Defined.

(** ** Adding a unit *)

Lemma add_found (code : string) (d : db) (it : item) :
  code ≠ "" → items d !! code = Some it →
  let ev := mkEvent (item_id it) add 1 None None None in
  post_inventory_add (Some code) d =
    ({| items := items d;
        inventory_onhand :=
          <[item_id it := onHand_of (item_id it) d + 1]> (inventory_onhand d);
        inventory_events := inventory_events d ++ [ev];
        next_id := next_id d |},
     Created_add ev (item_id it) (Model it)).
Proof.
  intros Hne Hit ev.
  unfold post_inventory_add, transaction, select_item.
  rewrite (falsy_code _ Hne). simpl. rewrite Hit.
  unfold insert_event. simpl.
  pose proof (update_insert 1 (item_id it) (ensureOnHandRow (item_id it) d) _
                (ensure_lookup (item_id it) d)) as Hu.
  simpl in Hu. rewrite Hu, ensure_items, ensure_events, ensure_next_id.
  do 2 f_equal.
  unfold ensureOnHandRow.
  destruct (inventory_onhand d !! item_id it); simpl; [done|].
  by rewrite insert_insert_eq.
Qed.

(** Either the request is refused and nothing changes, or it is for an item
    of the catalog. *)
Lemma add_cases (bc : option string) (d : db) :
  (∃ s e o, post_inventory_add bc d = (d, Failure s e o))
  ∨ (∃ code it, bc = Some code ∧ code ≠ "" ∧ items d !! code = Some it).
Proof.
  destruct (falsy bc) eqn:Hf.
  - left. unfold post_inventory_add. rewrite Hf. by eexists _, _, _.
  - apply falsy_false in Hf as (code & -> & Hne).
    destruct (items d !! code) as [it|] eqn:Hit.
    + right. by exists code, it.
    + left. unfold post_inventory_add, transaction, select_item.
      rewrite (falsy_code _ Hne). simpl. rewrite Hit. by eexists _, _, _.
Qed.

Lemma confirm_cases (now : string) (b : confirm_body) (d : db) :
  (∃ s e o, post_inventory_remove_confirm now b d = (d, Failure s e o))
  ∨ (∃ code it q date,
       barcode b = Some code ∧ code ≠ "" ∧ items d !! code = Some it
       ∧ inventory_onhand d !! item_id it = Some q ∧ q > 0
       ∧ date_subtracted (dateSubtracted b) now = Some date).
Proof.
  destruct (falsy (barcode b)) eqn:Hf.
  - left. unfold post_inventory_remove_confirm. rewrite Hf. by eexists _, _, _.
  - pose proof Hf as Hf'. apply falsy_false in Hf' as (code & Hb & Hne).
    destruct (items d !! code) as [it|] eqn:Hit.
    + destruct (inventory_onhand d !! item_id it) as [q|] eqn:Hq.
      * destruct (decide (q ≤ 0)) as [Hle|Hgt].
        -- left. rewrite (confirm_out_of_stock_outcome now b code d it q
                            Hb Hne Hit Hq Hle).
           by eexists _, _, _.
        -- destruct (date_subtracted (dateSubtracted b) now) as [date|] eqn:Hdate.
           ++ right. exists code, it, q, date. repeat split; try done. lia.
           ++ left. rewrite (confirm_refused_date now b code d it q); try done;
                [by eexists _, _, _|lia].
      * left. rewrite (confirm_without_row_changes_nothing now b code d it Hb Hne Hit Hq).
        by eexists _, _, _.
    + left. unfold post_inventory_remove_confirm, transaction, select_item.
      rewrite Hf, Hb. simpl. rewrite Hit. by eexists _, _, _.
Qed.

(** ** The catalog write and the ledger *)

(** The upsert touches neither the ledger nor the event log. *)
Lemma upsert_frame (now : string) (v : item_values) (d : db) :
  inventory_onhand (insert_item_on_conflict_update now v d).1 = inventory_onhand d
  ∧ inventory_events (insert_item_on_conflict_update now v d).1 = inventory_events d.
Proof.
  unfold insert_item_on_conflict_update.
  by destruct (items d !! v_ScannedCode v).
Qed.

(** The row it returns is the row it stores; an existing row keeps its
    identifier, a new one takes the next. *)
Lemma upsert_items (now : string) (v : item_values) (d : db) :
  let d' := (insert_item_on_conflict_update now v d).1 in
  let it := (insert_item_on_conflict_update now v d).2 in
  items d' = <[v_ScannedCode v := it]> (items d)
  ∧ ((∃ old, items d !! v_ScannedCode v = Some old
        ∧ item_id it = item_id old ∧ next_id d' = next_id d)
     ∨ (items d !! v_ScannedCode v = None
        ∧ item_id it = next_id d ∧ next_id d' = N.succ (next_id d))).
Proof.
  unfold insert_item_on_conflict_update.
  destruct (items d !! v_ScannedCode v) as [old|] eqn:E; simpl.
  - split; [done|]. left. by exists old.
  - split; [done|]. by right.
Qed.

Lemma upsert_wf (now : string) (v : item_values) (d : db) :
  db_wf d → db_wf (insert_item_on_conflict_update now v d).1.
Proof.
  intros [Hissued Hdistinct].
  destruct (upsert_items now v d) as (Hitems & Hid).
  set (d' := (insert_item_on_conflict_update now v d).1) in *.
  set (new := (insert_item_on_conflict_update now v d).2) in *.
  set (c := v_ScannedCode v) in *.
  assert (Hother : ∀ c' it', c' ≠ c → items d' !! c' = Some it' →
                     items d !! c' = Some it').
  { intros c' it' Hne. rewrite Hitems. by rewrite lookup_insert_ne. }
  assert (Hnew : ∀ it', items d' !! c = Some it' → it' = new).
  { intros it'. rewrite Hitems, lookup_insert_eq. by intros [= <-]. }
  split.
  - intros c' it' Hl. destruct (decide (c' = c)) as [->|Hne].
    + apply Hnew in Hl as ->.
      destruct Hid as [(old & Hold & -> & ->)|(_ & -> & ->)]; [by eapply Hissued|lia].
    + apply Hother in Hl; [|done]. apply Hissued in Hl.
      destruct Hid as [(_ & _ & _ & ->)|(_ & _ & ->)]; lia.
  - intros c1 c2 it1 it2 H1 H2 Heq.
    destruct (decide (c1 = c)) as [->|Hne1], (decide (c2 = c)) as [->|Hne2];
      try done.
    + apply Hnew in H1 as ->. apply Hother in H2; [|done].
      destruct Hid as [(old & Hold & Hsame & _)|(_ & Hfresh & _)].
      * eapply Hdistinct; [exact Hold|exact H2|congruence].
      * apply Hissued in H2. lia.
    + apply Hnew in H2 as ->. apply Hother in H1; [|done].
      destruct Hid as [(old & Hold & Hsame & _)|(_ & Hfresh & _)].
      * eapply Hdistinct; [exact H1|exact Hold|congruence].
      * apply Hissued in H1. lia.
    + eapply Hdistinct; eauto.
Qed.

(** Either the write is refused and nothing changes, or the row is upserted
    and its ledger row ensured. *)
Lemma post_items_cases (now : string) (b : item_body) (d : db) :
  post_items now b d = (d, Failure 400 MISSING_FIELDS None)
  ∨ ∃ v, v_ScannedCode v = param (body_ScannedCode b)
      ∧ v_InventoryDate v = Some (coalesce (body_InventoryDate b) now)
      ∧ post_items now b d =
          (ensureOnHandRow (item_id (insert_item_on_conflict_update now v d).2)
             (insert_item_on_conflict_update now v d).1,
           Created_item (insert_item_on_conflict_update now v d).2).
Proof.
  unfold post_items.
  destruct (falsy (body_ScannedCode b) || falsy (body_Model b)); [by left|].
  right. unfold transaction.
  match goal with
  | |- context [insert_item_on_conflict_update now ?v d] => exists v
  end.
  repeat split. by destruct (insert_item_on_conflict_update _ _ _).
Qed.

Lemma ledger_nonneg_ext (d d' : db) :
  inventory_onhand d' = inventory_onhand d → ledger_nonneg d → ledger_nonneg d'.
Proof. intros E Hd i q. rewrite E. apply Hd. Qed.

Lemma db_wf_ext (d d' : db) :
  items d' = items d → next_id d' = next_id d → db_wf d → db_wf d'.
Proof.
  intros Ei En [Hissued Hdistinct]. split.
  - intros c it. rewrite Ei, En. apply Hissued.
  - intros c1 c2 it1 it2. rewrite Ei. apply Hdistinct.
Qed.

(** Every request keeps the quantities of the ledger non-negative. *)
Lemma handle_nonneg (now : string) (r : request) (d : db) :
  ledger_nonneg d → ledger_nonneg (handle now r d).1.
Proof.
  intros Hd. destruct r as [b|bc|bc|b]; simpl.
  - destruct (post_items_cases now b d) as [->|(v & _ & _ & ->)]; [done|]. simpl.
    apply ensure_nonneg. eapply ledger_nonneg_ext; [|exact Hd].
    apply upsert_frame.
  - destruct (add_cases bc d) as [(s & e & o & ->)|(code & it & -> & Hne & Hit)];
      [done|].
    rewrite (add_found code d it Hne Hit). simpl.
    intros j q. simpl. destruct (decide (item_id it = j)) as [<-|Hj].
    + rewrite lookup_insert_eq. intros [= <-]. unfold onHand_of.
      destruct (inventory_onhand d !! item_id it) as [q0|] eqn:E; simpl; [|lia].
      apply Hd in E. lia.
    + rewrite lookup_insert_ne by done. apply Hd.
  - destruct (falsy bc) eqn:Hf.
    + unfold post_inventory_remove_initiate. by rewrite Hf.
    + apply falsy_false in Hf as (code & -> & Hne).
      destruct (items d !! code) as [it|] eqn:Hit.
      * rewrite (initiate_found code d it Hne Hit). simpl. by apply ensure_nonneg.
      * unfold post_inventory_remove_initiate, transaction, select_item.
        rewrite (falsy_code _ Hne). simpl. by rewrite Hit.
  - destruct (confirm_cases now b d)
      as [(s & e & o & ->)|(code & it & q & date & Hb & Hne & Hit & Hq & Hpos & Hdate)]; [done|].
    rewrite (confirm_in_stock now b code d it q date Hb Hne Hit Hq Hpos Hdate). simpl.
    intros j q'. simpl. destruct (decide (item_id it = j)) as [<-|Hj].
    + rewrite lookup_insert_eq. intros [= <-]. lia.
    + rewrite lookup_insert_ne by done. apply Hd.
Qed.

Lemma reachable_nonneg (d : db) : reachable d → ledger_nonneg d.
Proof.
  induction 1 as [|now r d _ IH].
  - intros i q. unfold empty_db. simpl. by rewrite lookup_empty.
  - by apply handle_nonneg.
Qed.

(** C2. In every state the server can reach from the empty tables, by any
    sequence of catalog writes, [AddOne], [InitiateRemove] and
    [ConfirmRemove] requests, every row of the ledger holds a quantity that
    is not negative. *)
Theorem on_hand_is_never_negative (d : db) (i : N) (q : Z) :
  reachable d → inventory_onhand d !! i = Some q → 0 ≤ q.
Proof. intros Hd. by apply reachable_nonneg. Qed.

Lemma serve_reachable (calls : list (string * request)) (d : db) :
  reachable d → reachable (serve calls d).1.
Proof.
  revert d. induction calls as [|[now r] calls IH]; intros d Hd; [done|].
  simpl. pose proof (reachable_step now r d Hd) as Hstep.
  destruct (handle now r d) as [d1 a]. simpl in Hstep.
  specialize (IH d1 Hstep). by destruct (serve calls d1).
Qed.

Lemma on_hand_is_never_negative_witness :
  let d := (serve [("2025-01-01T00:00:00Z", POST_items widget_body);
                   ("2025-01-01T00:01:00Z", POST_inventory_add (Some "X1"))]
              empty_db).1 in
  inventory_onhand d !! 0%N = Some 1 ∧ 0 ≤ 1.
Proof.
  intros d. split; [vm_compute; reflexivity|].
  apply (on_hand_is_never_negative d 0 1).
  - apply serve_reachable, reachable_empty.
  - vm_compute; reflexivity.
Defined.

(** ** The books of one item *)

Lemma handle_wf (now : string) (r : request) (d : db) :
  db_wf d → db_wf (handle now r d).1.
Proof.
  intros Hd. destruct r as [b|bc|bc|b]; simpl.
  - destruct (post_items_cases now b d) as [->|(v & _ & _ & ->)]; [done|]. simpl.
    eapply db_wf_ext; [apply ensure_items|apply ensure_next_id|].
    by apply upsert_wf.
  - destruct (add_cases bc d) as [(s & e & o & ->)|(code & it & -> & Hne & Hit)];
      [done|].
    rewrite (add_found code d it Hne Hit).
    eapply db_wf_ext; [| |exact Hd]; done.
  - eapply db_wf_ext; [|  |exact Hd].
    + apply initiate_keeps_quantities. exact 0%N.
    + unfold post_inventory_remove_initiate, transaction, select_item, select_on_hand.
      destruct (falsy bc); [done|].
      destruct (items d !! param bc) as [it|]; [|done].
      rewrite ensure_lookup. simpl. apply ensure_next_id.
  - destruct (confirm_cases now b d)
      as [(s & e & o & ->)|(code & it & q & date & Hb & Hne & Hit & Hq & Hpos & Hdate)]; [done|].
    rewrite (confirm_in_stock now b code d it q date Hb Hne Hit Hq Hpos Hdate).
    eapply db_wf_ext; [| |exact Hd]; done.
Qed.

Lemma reachable_wf (d : db) : reachable d → db_wf d.
Proof.
  induction 1 as [|now r d _ IH].
  - split; intros *; unfold empty_db; simpl; by rewrite lookup_empty.
  - by apply handle_wf.
Qed.

Lemma onHand_of_insert (i j : N) (q : Z) (d d' : db) :
  inventory_onhand d' = <[j := q]> (inventory_onhand d) →
  onHand_of i d' = if decide (j = i) then q else onHand_of i d.
Proof.
  intros E. unfold onHand_of. rewrite E.
  destruct (decide (j = i)) as [->|Hne].
  - by rewrite lookup_insert_eq.
  - by rewrite lookup_insert_ne.
Qed.

Lemma events_of_snoc (i : N) (a : action) (evs : list event) (ev : event) :
  length (filter (λ e, ev_item_id e = i ∧ ev_action e = a) (evs ++ [ev]))
  = (length (filter (λ e, ev_item_id e = i ∧ ev_action e = a) evs)
     + count (bool_decide (ev_item_id ev = i ∧ ev_action ev = a)))%nat.
Proof.
  rewrite filter_app, length_app. f_equal.
  rewrite filter_cons, filter_nil. unfold count.
  case_bool_decide as H; destruct (decide _) as [H'|H']; done.
Qed.

Section OneItem.

Variables (code : string) (i : N).

(** One request moves the books of the item by what its answer says. *)
Lemma handle_tracks (now : string) (r : request) (d : db) (n m : nat) :
  tracks code i d n m →
  tracks code i (handle now r d).1
    (n + count (is_added code (r, (handle now r d).2)))
    (m + count (is_removed code (r, (handle now r d).2))).
Proof.
  intros Ht. pose proof Ht as (Hwf & (it & Hit & Hid) & Hq & Hadd & Hrem).
  assert (Hsame : ∀ d', d' = d → tracks code i d' (n + 0) (m + 0)).
  { intros d' ->. by rewrite !Nat.add_0_r. }
  split; [by apply handle_wf|].
  destruct r as [b|bc|bc|b]; simpl.
  - (* catalog write *)
    destruct (post_items_cases now b d) as [->|(v & Hv & _ & ->)];
      [by apply Hsame|].
    simpl. rewrite !Nat.add_0_r.
    destruct (upsert_items now v d) as (Hitems & Hids).
    destruct (upsert_frame now v d) as (Hoh & Hev).
    set (d1 := (insert_item_on_conflict_update now v d).1) in *.
    set (new := (insert_item_on_conflict_update now v d).2) in *.
    repeat split.
    + rewrite ensure_items, Hitems.
      destruct (decide (v_ScannedCode v = code)) as [Hc|Hc].
      * exists new. rewrite Hc, lookup_insert_eq. split; [done|].
        destruct Hids as [(old & Hold & -> & _)|(Hnone & _)].
        -- rewrite Hc, Hit in Hold. by injection Hold as <-.
        -- rewrite Hc, Hit in Hnone. done.
      * exists it. by rewrite lookup_insert_ne.
    + rewrite ensure_onHand_of. unfold onHand_of. rewrite Hoh. exact Hq.
    + unfold events_of. rewrite ensure_events, Hev. exact Hadd.
    + unfold events_of. rewrite ensure_events, Hev. exact Hrem.
  - (* add *)
    destruct (add_cases bc d) as [(s & e & o & ->)|(c & it' & -> & Hne & Hit')];
      [by apply Hsame|].
    rewrite (add_found c d it' Hne Hit'). simpl. rewrite Nat.add_0_r.
    repeat split.
    + by exists it.
    + rewrite (onHand_of_insert i (item_id it') (onHand_of (item_id it') d + 1) d)
        by done.
      case_bool_decide as Hc; destruct (decide (item_id it' = i)) as [Hi|Hi];
        unfold count.
      * rewrite Hi, Hq. lia.
      * injection Hc as ->. rewrite Hit in Hit'. injection Hit' as <-. done.
      * exfalso. apply Hc. f_equal.
        eapply (wf_distinct d Hwf); [exact Hit'|exact Hit|congruence].
      * rewrite Hq. lia.
    + unfold events_of. simpl. rewrite events_of_snoc. simpl.
      fold (events_of i add d). rewrite Hadd. f_equal. f_equal.
      apply bool_decide_ext. split.
      * intros [Hi _]. f_equal.
        eapply (wf_distinct d Hwf); [exact Hit'|exact Hit|congruence].
      * intros [= ->]. rewrite Hit in Hit'. injection Hit' as <-. done.
    + unfold events_of. simpl. rewrite events_of_snoc. simpl.
      fold (events_of i remove d). rewrite Hrem. unfold count.
      rewrite bool_decide_eq_false_2; [lia|]. by intros [_ ?].
  - (* initiate *)
    destruct (initiate_keeps_quantities bc d i) as (Hoh & Hev & Hitems).
    rewrite !Nat.add_0_r.
    repeat split.
    + exists it. by rewrite Hitems.
    + by rewrite Hoh.
    + unfold events_of. by rewrite Hev.
    + unfold events_of. by rewrite Hev.
  - (* confirm *)
    destruct (confirm_cases now b d)
      as [(s & e & o & ->)|(c & it' & q & date & Hb & Hne & Hit' & Hq' & Hpos & Hdate)];
      [by apply Hsame|].
    rewrite (confirm_in_stock now b c d it' q date Hb Hne Hit' Hq' Hpos Hdate). simpl.
    rewrite Nat.add_0_r, Hb.
    repeat split.
    + by exists it.
    + rewrite (onHand_of_insert i (item_id it') (q - 1) d) by done.
      case_bool_decide as Hc; destruct (decide (item_id it' = i)) as [Hi|Hi];
        unfold count.
      * unfold onHand_of in Hq. rewrite <- Hi, Hq' in Hq. simpl in Hq. lia.
      * injection Hc as ->. rewrite Hit in Hit'. injection Hit' as <-. done.
      * exfalso. apply Hc. f_equal.
        eapply (wf_distinct d Hwf); [exact Hit'|exact Hit|congruence].
      * rewrite Hq. lia.
    + unfold events_of. simpl. rewrite events_of_snoc. simpl.
      fold (events_of i add d). rewrite Hadd. unfold count.
      rewrite bool_decide_eq_false_2; [lia|]. by intros [_ ?].
    + unfold events_of. simpl. rewrite events_of_snoc. simpl.
      fold (events_of i remove d). rewrite Hrem. f_equal. f_equal.
      apply bool_decide_ext. split.
      * intros [Hi _]. f_equal.
        eapply (wf_distinct d Hwf); [exact Hit'|exact Hit|congruence].
      * intros [= ->]. rewrite Hit in Hit'. injection Hit' as <-. done.
Qed.

End OneItem.

Lemma tally_cons (f : request * response → bool) (now : string) (r : request)
    (calls : list (string * request)) (a : response) (answers : list response) :
  tally f ((now, r) :: calls) (a :: answers)
  = (count (f (r, a)) + tally f calls answers)%nat.
Proof.
  unfold tally. simpl. rewrite filter_cons.
  destruct (decide (f (r, a) = true)) as [->|Hf]; [done|].
  by apply not_true_is_false in Hf as ->.
Qed.

Lemma serve_cons (now : string) (r : request) (calls : list (string * request))
    (d : db) :
  serve ((now, r) :: calls) d =
    ((serve calls (handle now r d).1).1,
     (handle now r d).2 :: (serve calls (handle now r d).1).2).
Proof.
  simpl. destruct (handle now r d) as [d1 a]. simpl.
  by destruct (serve calls d1).
Qed.

(** A sequence of requests moves the books of the item by the units its
    answers report as added and as removed. *)
Lemma serve_tracks (code : string) (i : N) (calls : list (string * request))
    (d : db) (n m : nat) :
  tracks code i d n m →
  tracks code i (serve calls d).1
    (n + tally (is_added code) calls (serve calls d).2)
    (m + tally (is_removed code) calls (serve calls d).2).
Proof.
  revert d n m. induction calls as [|[now r] calls IH]; intros d n m Ht.
  - simpl. unfold tally. simpl. by rewrite !Nat.add_0_r.
  - rewrite serve_cons. simpl. rewrite !tally_cons, !Nat.add_assoc.
    apply IH. by apply handle_tracks.
Qed.

(** C3. Take an item of a consistent catalog that is fresh: nothing on
    hand and no event.  After any sequence of requests served one after the
    other, of which [N] are [AddOne] calls for the item answered 201 and [M]
    are [ConfirmRemove] calls for the item answered [REMOVED], the on-hand
    quantity of the item is [N - M] and the event log holds exactly [N] add
    events and [M] remove events of the item.  The sequence may contain
    refused calls and calls for other items as well. *)
Theorem adds_minus_removes (code : string) (it : item) (d : db)
    (calls : list (string * request)) :
  db_wf d → items d !! code = Some it →
  onHand_of (item_id it) d = 0 →
  events_of (item_id it) add d = [] →
  events_of (item_id it) remove d = [] →
  let d' := (serve calls d).1 in
  let answers := (serve calls d).2 in
  let N := tally (is_added code) calls answers in
  let M := tally (is_removed code) calls answers in
  onHand_of (item_id it) d' = Z.of_nat N - Z.of_nat M
  ∧ length (events_of (item_id it) add d') = N
  ∧ length (events_of (item_id it) remove d') = M.
Proof.
  intros Hwf Hit Hq Hadd Hrem d' answers N M.
  assert (Ht : tracks code (item_id it) d 0 0).
  { split; [done|]. split; [by exists it|]. by rewrite Hq, Hadd, Hrem. }
  apply (serve_tracks code (item_id it) calls) in Ht.
  destruct Ht as (_ & _ & Hq' & Hadd' & Hrem'). done.
Qed.

Lemma adds_minus_removes_witness :
  let d := (serve [("2025-01-01T00:00:00Z", POST_items widget_body)] empty_db).1 in
  let it := mkItem 0 "2025-01-01T00:00:00Z" "X1" None "Widget" None None None
                   None None None None None in
  let calls :=
    [ ("2025-01-02T00:00:00Z", POST_inventory_add (Some "X1"));
      ("2025-01-03T00:00:00Z", POST_inventory_remove_confirm widget_confirm);
      ("2025-01-04T00:00:00Z", POST_inventory_remove_confirm widget_confirm);
      ("2025-01-05T00:00:00Z", POST_inventory_add (Some "X1"));
      ("2025-01-06T00:00:00Z", POST_inventory_add (Some "X1")) ] in
  (tally (is_added "X1") calls (serve calls d).2 = 3%nat
   ∧ tally (is_removed "X1") calls (serve calls d).2 = 1%nat)
  ∧ onHand_of (item_id it) (serve calls d).1
    = Z.of_nat (tally (is_added "X1") calls (serve calls d).2)
      - Z.of_nat (tally (is_removed "X1") calls (serve calls d).2)
  ∧ length (events_of (item_id it) add (serve calls d).1)
    = tally (is_added "X1") calls (serve calls d).2
  ∧ length (events_of (item_id it) remove (serve calls d).1)
    = tally (is_removed "X1") calls (serve calls d).2.
Proof.
  intros d it calls.
  split; [split; vm_compute; reflexivity|].
  apply (adds_minus_removes "X1" it d calls).
  - apply reachable_wf, serve_reachable, reachable_empty.
  - vm_compute; reflexivity.
  - vm_compute; reflexivity.
  - vm_compute; reflexivity.
  - vm_compute; reflexivity.
Defined.

(** ** The catalog write on an existing item *)

(** The statement alone keeps the stored date when its first parameter is
    [NULL], and overwrites every other column. *)
Lemma upsert_null_date_keeps_stored (now : string) (v : item_values) (d : db)
    (old : item) :
  items d !! v_ScannedCode v = Some old → v_InventoryDate v = None →
  InventoryDate (insert_item_on_conflict_update now v d).2 = InventoryDate old.
Proof.
  intros Hold Hnull. unfold insert_item_on_conflict_update.
  rewrite Hold. simpl. by rewrite Hnull.
Qed.

(** The handler never passes [NULL] there: an absent date is replaced by
    the clock before the statement runs.  The row stored for an existing scan
    code has the identifier it had, every field of the request, and as its
    date the date of the request or else the time of the request. *)
Lemma post_items_existing (now : string) (b : item_body) (d : db)
    (code model : string) (old : item) :
  body_ScannedCode b = Some code → code ≠ "" →
  body_Model b = Some model → model ≠ "" →
  items d !! code = Some old →
  let it :=
    {| item_id := item_id old;
       InventoryDate := coalesce (body_InventoryDate b) now;
       ScannedCode := ScannedCode old;
       Brand := body_Brand b; Model := model; Size := body_Size b;
       Color := body_Color b; Notes := body_Notes b;
       SoldOrderNum := body_SoldOrderNum b; PurchasedFrom := body_PurchasedFrom b;
       PaintThickness := number_or_null (body_PaintThickness b);
       Price := number_or_null (body_Price b);
       Qty := number_or_null (body_Qty b) |} in
  (post_items now b d).2 = Created_item it
  ∧ items (post_items now b d).1 !! code = Some it.
Proof.
  intros Hc Hne Hm Hmne Hold it.
  unfold post_items, transaction, insert_item_on_conflict_update.
  rewrite Hc, Hm, (falsy_code _ Hne), (falsy_code _ Hmne). simpl.
  rewrite Hold. simpl. split; [done|].
  by rewrite ensure_items; simpl; rewrite lookup_insert_eq.
Qed.

(** C5. On the stored item [widget], dated 2024-01-01, a catalog write
    with the same scan code and no [InventoryDate], served at noon of
    2025-06-01, stores that time as the inventory date: the prior date is
    not kept.  (The other fields take the values of the request, see
    [post_items_existing].) *)
Theorem catalog_write_without_date_stores_the_clock :
  let now := "2025-06-01T12:00:00.000Z" in
  body_InventoryDate widget_body = None
  ∧ InventoryDate <$> items (widget_db 0) !! "X1" = Some "2024-01-01T00:00:00.000Z"
  ∧ InventoryDate <$> items (post_items now widget_body (widget_db 0)).1 !! "X1"
    = Some now.
Proof. repeat split; vm_compute; reflexivity. Qed.

(** ** Fields the search does not know *)

(** A string literal is, or is not, among the filterable names. *)
Ltac listed :=
  unfold filter_keys;
  repeat first [apply list_elem_of_here | apply list_elem_of_further].

Ltac not_listed :=
  let H := fresh "H" in
  unfold filter_keys; intros H;
  repeat (apply elem_of_cons in H as [H|H]; [discriminate H|]);
  by apply elem_of_nil in H.

Lemma parseList_insert_ne (query : gmap string qval) (k k' : string) (v : qval) :
  k ≠ k' → parseList (<[k := v]> query) k' = parseList query k'.
Proof. intros Hne. unfold parseList. by rewrite lookup_insert_ne. Qed.

Lemma filters_insert_other (query : gmap string qval) (k : string) (v : qval)
    (keys : list string) :
  k ∉ keys →
  map (λ k', (k', parseList (<[k := v]> query) k')) keys
  = map (λ k', (k', parseList query k')) keys.
Proof.
  intros Hk. apply map_ext_in. intros k' Hin.
  rewrite parseList_insert_ne; [done|].
  intros ->. apply Hk. by apply list_elem_of_In.
Qed.

(** The loop over the filters ends with a clause whenever every key is an
    own entry of [FIELD_MAP]. *)
Lemma add_filter_own (entries : list (string * list string))
    (acc : list condition * list sql_param * nat) :
  Forall (λ e, ∃ col, get_property FIELD_MAP e.1 = own col) entries →
  is_Some (foldl add_filter (Some acc) entries).
Proof.
  revert acc. induction entries as [|[key values] entries IH]; intros acc Hown.
  - by eexists.
  - apply Forall_cons in Hown as [(col & Hcol) Hown]. simpl in *.
    destruct acc as [[wh ps] i]. case_bool_decide; [by apply IH|].
    rewrite Hcol. by apply IH.
Qed.

Lemma filter_keys_own (query : gmap string qval) :
  Forall (λ e : string * list string, ∃ col, get_property FIELD_MAP e.1 = own col)
    (map (λ k, (k, parseList query k)) filter_keys).
Proof.
  unfold filter_keys. simpl.
  repeat (apply Forall_cons; split; [by eexists; vm_compute|]).
  apply Forall_nil_2.
Qed.

(** The search never answers with a refusal of its own. *)
Lemma search_always_rows (query : gmap string qval) :
  ∃ st, get_items_search query = Search_rows st.
Proof.
  unfold get_items_search.
  match goal with
  | |- context [foldl add_filter (Some ?acc) ?l] =>
      destruct (add_filter_own l acc (filter_keys_own query)) as [[[wh ps] i] ->]
  end.
  by eexists.
Qed.

Lemma search_ignores_unknown_field (query : gmap string qval) (k : string) (v : qval) :
  k ∉ filter_keys → k ≠ "q" →
  get_items_search (<[k := v]> query) = get_items_search query.
Proof.
  intros Hk Hq. unfold get_items_search.
  rewrite lookup_insert_ne by done.
  by rewrite filters_insert_other.
Qed.

Lemma toLowerCase_no_upper (s : string) : has_upper (toLowerCase s) = false.
Proof.
  induction s as [|c s IH]; [done|]. simpl. rewrite IH, orb_false_r.
  unfold lower_char, is_upper.
  destruct ((65 <=? N_of_ascii c)%N && (N_of_ascii c <=? 90)%N) eqn:E; [|done].
  apply andb_true_iff in E as [Hlo Hhi].
  apply N.leb_le in Hlo, Hhi.
  assert (Hlt : (N_of_ascii c + 32 < 256)%N) by lia.
  rewrite N_ascii_embedding by done.
  apply andb_false_iff. right. apply N.leb_gt. lia.
Qed.

(** Of the members every object inherits, only two have a name without an
    upper-case letter. *)
Lemma lowered_prototype_name (s : string) :
  toLowerCase s ∈ Object_prototype →
  toLowerCase s = "constructor" ∨ toLowerCase s = "__proto__".
Proof.
  pose proof (toLowerCase_no_upper s) as Hup. revert Hup.
  generalize (toLowerCase s). intros f Hup Hin.
  unfold Object_prototype in Hin.
  repeat (apply elem_of_cons in Hin as [->|Hin];
          [first [by left | by right | by vm_compute in Hup]|]).
  by apply elem_of_nil in Hin.
Qed.

Lemma FIELD_MAP_not_listed (f : string) :
  f ∉ filter_keys → FIELD_MAP !! f = None.
Proof.
  intros Hf. unfold FIELD_MAP. simpl.
  repeat (rewrite lookup_insert_ne;
          [|intros <-; apply Hf; unfold filter_keys; listed]).
  apply lookup_empty.
Qed.

Lemma distinct_rejects_unknown_field (query : gmap string qval) :
  fieldParam query ∉ filter_keys →
  fieldParam query ≠ "constructor" → fieldParam query ≠ "__proto__" →
  get_items_distinct query = Failure 400 INVALID_FIELD None.
Proof.
  intros Hf Hc Hp. unfold get_items_distinct, get_property.
  rewrite (FIELD_MAP_not_listed _ Hf).
  case_bool_decide as Hin; [|done].
  unfold fieldParam in *. by apply lowered_prototype_name in Hin as [?|?].
Qed.

(** C6, as the handlers have it.  A field of the query string outside the
    eight filterable names (and other than [q]) is ignored by the search: the
    answer is the one the request gets without it, and it is a list of rows.
    [DistinctValues] answers 400 [INVALID_FIELD] for a field that, in lower
    case, is none of the eight names, nor [constructor] or [__proto__]. *)
Theorem search_ignores_and_distinct_rejects (query : gmap string qval) (k : string)
    (v : qval) (facet : gmap string qval) :
  k ∉ filter_keys → k ≠ "q" →
  fieldParam facet ∉ filter_keys →
  fieldParam facet ≠ "constructor" → fieldParam facet ≠ "__proto__" →
  get_items_search (<[k := v]> query) = get_items_search query
  ∧ (∃ st, get_items_search (<[k := v]> query) = Search_rows st)
  ∧ get_items_distinct facet = Failure 400 INVALID_FIELD None.
Proof.
  intros Hk Hq Hf Hc Hp. split; [by apply search_ignores_unknown_field|].
  split; [apply search_always_rows|by apply distinct_rejects_unknown_field].
Qed.

Lemma search_ignores_and_distinct_rejects_witness :
  get_items_search (<["foo" := QStr "bar"]> {[ "brand" := QStr "Acme" ]})
  = get_items_search {[ "brand" := QStr "Acme" ]}
  ∧ (∃ st, get_items_search (<["foo" := QStr "bar"]> {[ "brand" := QStr "Acme" ]})
           = Search_rows st)
  ∧ get_items_distinct {[ "field" := QStr "Price" ]} = Failure 400 INVALID_FIELD None.
Proof.
  apply (search_ignores_and_distinct_rejects
           {[ "brand" := QStr "Acme" ]} "foo" (QStr "bar") {[ "field" := QStr "Price" ]}).
  - not_listed.
  - discriminate.
  - replace (fieldParam _) with "price" by (vm_compute; reflexivity). not_listed.
  - vm_compute. discriminate.
  - vm_compute. discriminate.
Defined.

(** C6 as the specification words it fails: a search whose query has the
    field [foo], which is not filterable, is answered with rows (the
    unfiltered statement), not with [INVALID_FIELD].  And the two inherited
    names, which are not filterable either, get past the test of
    [DistinctValues]: the statement built from them is refused by the
    database, and the answer is 500. *)
Lemma search_does_not_reject_unknown_field :
  ("foo" ∉ filter_keys)
  ∧ get_items_search {[ "foo" := QStr "bar" ]} = Search_rows (mkSearch [] [] 200)
  ∧ get_items_search {[ "foo" := QStr "bar" ]} ≠ Failure 400 INVALID_FIELD None
  ∧ ("constructor" ∉ filter_keys)
  ∧ get_items_distinct {[ "field" := QStr "constructor" ]}
    = Failure 500 SERVER_ERROR None
  ∧ get_items_distinct {[ "field" := QStr "__proto__" ]}
    = Failure 500 SERVER_ERROR None.
Proof.
  split; [not_listed|].
  split; [vm_compute; reflexivity|].
  split; [vm_compute; discriminate|].
  split; [not_listed|].
  split; vm_compute; reflexivity.
Qed.

(** ** The free text of the search *)

Lemma like_percent_unfold (p t : string) :
  like (String "%" p) t =
  like p t || match t with
              | EmptyString => false
              | String _ t' => like (String "%" p) t'
              end.
Proof. by destruct t. Qed.

Lemma like_percent_only (t : string) : like "%" t = true.
Proof.
  induction t as [|c t IH]; [done|].
  rewrite like_percent_unfold, IH. apply orb_true_r.
Qed.

Lemma like_escape (c : ascii) (p t : string) :
  like (String "\" (String c p)) t =
  match t with
  | EmptyString => false
  | String c' t' => Ascii.eqb c c' && like p t'
  end.
Proof. reflexivity. Qed.

Lemma like_plain (c : ascii) (p t : string) :
  Ascii.eqb c "%" = false → Ascii.eqb c "_" = false → Ascii.eqb c "\" = false →
  like (String c p) t =
  match t with
  | EmptyString => false
  | String c' t' => Ascii.eqb c c' && like p t'
  end.
Proof. intros Hp Hu Hb. cbn [like]. by rewrite Hp, Hu, Hb. Qed.

Lemma prefix_cons (c c' : ascii) (q t : string) :
  String.prefix (String c q) (String c' t) = Ascii.eqb c c' && String.prefix q t.
Proof.
  simpl. destruct (ascii_dec c c') as [->|Hne].
  - by rewrite Ascii.eqb_refl.
  - apply Ascii.eqb_neq in Hne. by rewrite Hne.
Qed.

(** Without a backslash in the text, the escaped text followed by [%]
    matches exactly the strings that start with the text. *)
Lemma like_escaped_prefix (q t : string) :
  has_char "\" q = false →
  like (escape_like q +:+ "%") t = String.prefix q t.
Proof.
  revert t. induction q as [|c q IH]; intros t Hq.
  - simpl. rewrite like_percent_only. by destruct t.
  - cbn [has_char] in Hq. apply orb_false_iff in Hq as [Hc Hq].
    rewrite Ascii.eqb_sym in Hc.
    cbn [escape_like].
    destruct (Ascii.eqb c "%" || Ascii.eqb c "_") eqn:Hmeta.
    + change (like (String "\" (String c (escape_like q +:+ "%"))) t
              = String.prefix (String c q) t).
      rewrite like_escape. destruct t as [|c' t]; [done|].
      by rewrite prefix_cons, IH.
    + apply orb_false_iff in Hmeta as [Hp Hu].
      change (like (String c (escape_like q +:+ "%")) t
              = String.prefix (String c q) t).
      rewrite like_plain by done.
      destruct t as [|c' t]; [done|].
      by rewrite prefix_cons, IH.
Qed.

Lemma like_contains (q t : string) :
  has_char "\" q = false →
  like ("%" +:+ escape_like q +:+ "%") t = contains q t.
Proof.
  intros Hq. change ("%" +:+ escape_like q +:+ "%")
    with (String "%" (escape_like q +:+ "%")).
  induction t as [|c t IH].
  - rewrite like_percent_unfold, like_escaped_prefix by done. by destruct q.
  - rewrite like_percent_unfold, like_escaped_prefix, IH by done.
    by destruct q.
Qed.

Lemma lower_char_meta (c : ascii) :
  Ascii.eqb (lower_char c) "%" = Ascii.eqb c "%"
  ∧ Ascii.eqb (lower_char c) "_" = Ascii.eqb c "_"
  ∧ Ascii.eqb "\" (lower_char c) = Ascii.eqb "\" c.
Proof. by destruct c as [[] [] [] [] [] [] [] []]. Qed.

Lemma toLowerCase_app (s t : string) :
  toLowerCase (s +:+ t) = toLowerCase s +:+ toLowerCase t.
Proof. induction s as [|c s IH]; [done|]. simpl. by rewrite IH. Qed.

Lemma toLowerCase_escape (s : string) :
  toLowerCase (escape_like s) = escape_like (toLowerCase s).
Proof.
  induction s as [|c s IH]; [done|]. cbn [toLowerCase escape_like].
  destruct (lower_char_meta c) as (-> & -> & _).
  destruct (Ascii.eqb c "%" || Ascii.eqb c "_"); cbn [toLowerCase]; by rewrite IH.
Qed.

Lemma toLowerCase_backslash (s : string) :
  has_char "\" (toLowerCase s) = has_char "\" s.
Proof.
  induction s as [|c s IH]; [done|]. cbn [toLowerCase has_char].
  destruct (lower_char_meta c) as (_ & _ & ->). by rewrite IH.
Qed.

(** What the free-text condition does for a text without a backslash: the
    column matches exactly when it contains the text, letter case aside, with
    every [%] and [_] of the text standing for itself. *)
Lemma ilike_is_containment (q t : string) :
  has_char "\" q = false →
  ilike t ("%" +:+ escape_like q +:+ "%")
  = contains (toLowerCase q) (toLowerCase t).
Proof.
  intros Hq. unfold ilike.
  rewrite !toLowerCase_app, toLowerCase_escape.
  apply like_contains. by rewrite toLowerCase_backslash.
Qed.

(** C7. For the free text [\%], a backslash and a percent sign, the pattern
    sent to the database is [%\\%%]: the backslash of the text is not
    escaped, so it escapes the backslash the handler puts before [%], and
    the percent sign of the text is left to act as a wildcard.  The row
    [noted_widget], whose notes hold a backslash and no percent sign, is
    selected although no column of it contains the text. *)
Theorem free_text_backslash_frees_the_wildcard :
  get_items_search {[ "q" := QStr "\%" ]}
  = Search_rows (mkSearch [ILIKE_any 1] [text_param "%\\%%"] 200)
  ∧ ilike "shelf A\B" "%\\%%" = true
  ∧ contains (toLowerCase "\%") (toLowerCase "shelf A\B") = false
  ∧ ∀ text_of_number text_of_timestamp,
      selects text_of_number text_of_timestamp
        (mkSearch [ILIKE_any 1] [text_param "%\\%%"] 200) noted_widget = true.
Proof.
  split; [vm_compute; reflexivity|].
  split; [vm_compute; reflexivity|].
  split; [vm_compute; reflexivity|].
  intros tn tt. vm_compute. reflexivity.
Qed.

(** ** The remove-confirmation dialog *)

Section ConfirmDialog.

Import ScanSession.

Variable toISOString : string → string.

(** "No" closes the dialog and sends nothing, whatever [onConfirm] is; the
    mode stays what it was. *)
Lemma no_sends_nothing (onConfirm : payload → handler) (f : dialog) (s : session) :
  ConfirmRemoveModal toISOString onCancel onConfirm f No s
  = ({| mode := mode s; toast := toast s; scanInput := scanInput s;
        confirmRemove := None |}, []).
Proof. reflexivity. Qed.

(** "Yes" in the copy with the mobile layout: one confirmation request,
    with the scan code and the three inputs of the dialog. *)
Lemma AppMobile_yes_forwards (f : dialog) (s : session) (cr : pending_removal) :
  confirmRemove s = Some cr →
  ConfirmRemoveModal toISOString onCancel AppMobile.onConfirm f Yes s
  = (s, [POST_inventory_remove_confirm
           {| barcode := Some (ii_ScannedCode (item cr));
              orderId := or_null (orderId_input f);
              whereBoughtFrom := or_null (whereBought_input f);
              dateSubtracted :=
                if bool_decide (dateSub_input f = "") then None
                else Some (timestamptz (toISOString (dateSub_input f))) |}]).
Proof. intros Hcr. simpl. unfold AppMobile.onConfirm. by rewrite Hcr. Qed.

(** "Yes" in [App.tsx]: one confirmation request, with the scan code
    alone, whatever the dialog holds. *)
Lemma App_yes_sends_barcode (f : dialog) (s : session) (cr : pending_removal) :
  confirmRemove s = Some cr →
  ConfirmRemoveModal toISOString onCancel App.onConfirm f Yes s
  = (s, [POST_inventory_remove_confirm
           {| barcode := Some (ii_ScannedCode (item cr));
              orderId := None; whereBoughtFrom := None;
              dateSubtracted := None |}]).
Proof. intros Hcr. simpl. unfold App.onConfirm. by rewrite Hcr. Qed.

End ConfirmDialog.

(** C8. With the order reference, the source and the date filled in,
    "yes" in [App.tsx] sends a confirmation that carries the scan code and
    none of the three: the server then logs the removal without order
    reference or source and dated by its own clock.  The other copy of the
    client sends all three, and "no" sends nothing in either. *)
Theorem App_yes_leaves_the_metadata_out (toISOString : string → string) :
  let now := "2025-01-02T09:30:00Z" in
  let sent := {| barcode := Some "X1"; orderId := None; whereBoughtFrom := None;
                 dateSubtracted := None |} in
  ScanSession.ConfirmRemoveModal toISOString ScanSession.onCancel App.onConfirm
    filled ScanSession.Yes asking
  = (asking, [POST_inventory_remove_confirm sent])
  ∧ (post_inventory_remove_confirm now sent (widget_db 2)).2
    = REMOVED None 1 (mkEvent 0 remove 1 None None (Some now))
  ∧ ScanSession.ConfirmRemoveModal toISOString ScanSession.onCancel
      AppMobile.onConfirm filled ScanSession.Yes asking
    = (asking,
       [POST_inventory_remove_confirm
          {| barcode := Some "X1"; orderId := Some "SO-12345";
             whereBoughtFrom := Some "Website";
             dateSubtracted :=
               Some (timestamptz (toISOString "2025-01-02T10:00")) |}])
  ∧ (ScanSession.ConfirmRemoveModal toISOString ScanSession.onCancel App.onConfirm
       filled ScanSession.No asking).2 = [].
Proof. repeat split. Qed.

(** * Further properties of the handlers *)

(** ** Unknown scan codes *)

(** X1. A request for a scan code that is not in the catalog is answered
    404 [ITEM_NOT_FOUND] by the lookup, by [AddOne], by [InitiateRemove] and
    by [ConfirmRemove], and the tables stay what they were. *)
Theorem unknown_code_is_not_found (now : string) (b : confirm_body) (code : string)
    (d : db) :
  barcode b = Some code → code ≠ "" → items d !! code = None →
  get_items_code code d = Item_failure 404 ITEM_NOT_FOUND
  ∧ post_inventory_add (Some code) d = (d, Failure 404 ITEM_NOT_FOUND None)
  ∧ post_inventory_remove_initiate (Some code) d = (d, Failure 404 ITEM_NOT_FOUND None)
  ∧ post_inventory_remove_confirm now b d = (d, Failure 404 ITEM_NOT_FOUND None).
Proof.
  intros Hb Hne Hnone.
  unfold get_items_code, post_inventory_add, post_inventory_remove_initiate,
    post_inventory_remove_confirm, transaction, select_item.
  rewrite Hb, (falsy_code _ Hne). simpl. by rewrite Hnone.
Qed.

Lemma unknown_code_is_not_found_witness :
  get_items_code "Y9" (widget_db 2) = Item_failure 404 ITEM_NOT_FOUND
  ∧ post_inventory_add (Some "Y9") (widget_db 2)
    = (widget_db 2, Failure 404 ITEM_NOT_FOUND None)
  ∧ post_inventory_remove_initiate (Some "Y9") (widget_db 2)
    = (widget_db 2, Failure 404 ITEM_NOT_FOUND None)
  ∧ post_inventory_remove_confirm "2025-01-01T00:00:00Z"
      (mkConfirmBody (Some "Y9") None None None) (widget_db 2)
    = (widget_db 2, Failure 404 ITEM_NOT_FOUND None).
Proof.
  apply (unknown_code_is_not_found "2025-01-01T00:00:00Z"
           (mkConfirmBody (Some "Y9") None None None) "Y9" (widget_db 2)).
  - reflexivity.
  - discriminate.
  - vm_compute; reflexivity.
Defined.

(** ** What a request can do to the tables *)

Lemma post_items_effect (now : string) (b : item_body) (d : db) :
  effect d (post_items now b d).1.
Proof.
  unfold post_items.
  destruct (falsy (body_ScannedCode b)) eqn:Hc; [apply effect_none|].
  destruct (falsy (body_Model b)) eqn:Hm; [apply effect_none|].
  apply falsy_false in Hc as (code & Hc & Hcne).
  apply falsy_false in Hm as (model & Hm & Hmne).
  simpl. unfold transaction.
  match goal with
  | |- context [insert_item_on_conflict_update now ?v d] =>
      pose proof (effect_upsert d now v) as He
  end.
  simpl in He. rewrite Hc, Hm in He. specialize (He Hcne Hmne).
  rewrite Hc, Hm.
  by destruct (insert_item_on_conflict_update _ _ _).
Qed.

Lemma handle_effect (now : string) (r : request) (d : db) :
  effect d (handle now r d).1.
Proof.
  destruct r as [b|bc|bc|b]; simpl.
  - apply post_items_effect.
  - destruct (add_cases bc d) as [(s & e & o & ->)|(code & it & -> & Hne & Hit)];
      [apply effect_none|].
    rewrite (add_found code d it Hne Hit). by eapply effect_add.
  - destruct (falsy bc) eqn:Hf.
    + unfold post_inventory_remove_initiate. rewrite Hf. apply effect_none.
    + apply falsy_false in Hf as (code & -> & Hne).
      destruct (items d !! code) as [it|] eqn:Hit.
      * rewrite (initiate_found code d it Hne Hit). by eapply effect_row.
      * unfold post_inventory_remove_initiate, transaction, select_item.
        rewrite (falsy_code _ Hne). simpl. rewrite Hit. apply effect_none.
  - destruct (confirm_cases now b d)
      as [(s & e & o & ->)|(code & it & q & date & Hb & Hne & Hit & Hq & Hpos & Hdate)];
      [apply effect_none|].
    rewrite (confirm_in_stock now b code d it q date Hb Hne Hit Hq Hpos Hdate).
    by eapply effect_remove.
Qed.

(** Rows of the ledger are never deleted, events are only appended, and a
    scan code of the catalog keeps its identifier. *)
Lemma effect_grows (d d' : db) :
  effect d d' →
  (∀ j, is_Some (inventory_onhand d !! j) → is_Some (inventory_onhand d' !! j))
  ∧ inventory_events d `prefix_of` inventory_events d'
  ∧ (∀ c it, items d !! c = Some it →
       ∃ it', items d' !! c = Some it' ∧ item_id it' = item_id it)
  ∧ (next_id d ≤ next_id d')%N.
Proof.
  assert (Hins : ∀ (m : gmap N Z) i q j, is_Some (m !! j) → is_Some (<[i := q]> m !! j)).
  { intros m i q j Hj. destruct (decide (i = j)) as [->|Hne].
    - rewrite lookup_insert_eq. by eexists.
    - by rewrite lookup_insert_ne. }
  assert (Hens : ∀ d0 i j, is_Some (inventory_onhand d0 !! j) →
                   is_Some (inventory_onhand (ensureOnHandRow i d0) !! j)).
  { intros d0 i j Hj. unfold ensureOnHandRow.
    destruct (inventory_onhand d0 !! i); simpl; [done|]. by apply Hins. }
  intros [|c it Hit|c it Hit|c it q o w t Hit Hq Hpos|now v Hc Hm].
  - repeat split; try done. intros c it Hit. by exists it.
  - repeat split.
    + intros j. apply Hens.
    + by rewrite ensure_events.
    + intros c' it' Hit'. exists it'. by rewrite ensure_items.
    + by rewrite ensure_next_id.
  - simpl. repeat split.
    + intros j. apply Hins.
    + by apply prefix_app_r.
    + intros c' it' Hit'. by exists it'.
    + done.
  - simpl. repeat split.
    + intros j. apply Hins.
    + by apply prefix_app_r.
    + intros c' it' Hit'. by exists it'.
    + done.
  - destruct (upsert_items now v d) as (Hitems & Hids).
    destruct (upsert_frame now v d) as (Hoh & Hev).
    repeat split.
    + intros j Hj. apply Hens. by rewrite Hoh.
    + by rewrite ensure_events, Hev.
    + intros c it Hit. rewrite ensure_items, Hitems.
      destruct (decide (v_ScannedCode v = c)) as [<-|Hne].
      * rewrite lookup_insert_eq. eexists. split; [done|].
        destruct Hids as [(old & Hold & -> & _)|(Hnone & _)]; [|congruence].
        rewrite Hit in Hold. by injection Hold as <-.
      * exists it. by rewrite lookup_insert_ne.
    + rewrite ensure_next_id. destruct Hids as [(_ & _ & _ & ->)|(_ & _ & ->)]; lia.
Qed.

(** ** What every reachable state satisfies *)

Lemma effect_ledgered (d d' : db) : effect d d' → ledgered d → ledgered d'.
Proof.
  intros He Hl.
  pose proof (effect_grows d d' He) as (Hrows & _ & _ & _).
  destruct He as [|c it Hit|c it Hit|c it q o w t Hit Hq Hpos|now v Hc Hm];
    try (intros c' it' Hit'; apply Hrows; eapply Hl;
         simpl in Hit'; rewrite ?ensure_items in Hit'; exact Hit').
  destruct (upsert_items now v d) as (Hitems & _).
  destruct (upsert_frame now v d) as (Hoh & _).
  intros c it. rewrite ensure_items, Hitems.
  destruct (decide (v_ScannedCode v = c)) as [<-|Hne].
  - rewrite lookup_insert_eq. intros [= <-]. rewrite ensure_lookup. by eexists.
  - rewrite lookup_insert_ne by done. intros Hit.
    apply Hrows. by eapply Hl.
Qed.

Lemma effect_keyed (d d' : db) : effect d d' → keyed d → keyed d'.
Proof.
  intros He Hk.
  destruct He as [|c it Hit|c it Hit|c it q o w t Hit Hq Hpos|now v Hc Hm];
    try done.
  - intros c' it'. rewrite ensure_items. apply Hk.
  - destruct (upsert_items now v d) as (Hitems & _).
    intros c it. rewrite ensure_items, Hitems.
    destruct (decide (v_ScannedCode v = c)) as [<-|Hne].
    + rewrite lookup_insert_eq. intros [= <-].
      unfold insert_item_on_conflict_update.
      destruct (items d !! v_ScannedCode v) as [old|] eqn:Hold; simpl; [|done].
      by destruct (Hk _ _ Hold) as (-> & _ & _).
    + rewrite lookup_insert_ne by done. apply Hk.
Qed.

Lemma effect_balanced (d d' : db) : effect d d' → balanced d → balanced d'.
Proof.
  intros He Hb i. specialize (Hb i).
  destruct He as [|c it Hit|c it Hit|c it q o w t Hit Hq Hpos|now v Hc Hm].
  - done.
  - rewrite ensure_onHand_of. unfold events_of. by rewrite ensure_events.
  - rewrite (onHand_of_insert i (item_id it) (onHand_of (item_id it) d + 1) d)
      by done.
    unfold events_of in *. simpl. rewrite !events_of_snoc. simpl.
    rewrite (bool_decide_eq_false_2 (item_id it = i ∧ add = remove))
      by (by intros [_ ?]).
    destruct (decide (item_id it = i)) as [<-|Hne].
    + rewrite bool_decide_eq_true_2 by (by split).
      unfold count. lia.
    + rewrite bool_decide_eq_false_2 by (by intros [? _]). unfold count. lia.
  - rewrite (onHand_of_insert i (item_id it) (q - 1) d) by done.
    unfold events_of in *. simpl. rewrite !events_of_snoc. simpl.
    rewrite (bool_decide_eq_false_2 (item_id it = i ∧ remove = add))
      by (by intros [_ ?]).
    destruct (decide (item_id it = i)) as [<-|Hne].
    + rewrite bool_decide_eq_true_2 by (by split).
      unfold count. unfold onHand_of in Hb. rewrite Hq in Hb.
      simpl in Hb. lia.
    + rewrite bool_decide_eq_false_2 by (by intros [? _]). unfold count. lia.
  - destruct (upsert_frame now v d) as (Hoh & Hev).
    rewrite ensure_onHand_of. unfold onHand_of, events_of in *.
    by rewrite ensure_events, Hoh, Hev.
Qed.

Lemma effect_wf (d d' : db) : effect d d' → db_wf d → db_wf d'.
Proof.
  intros He Hwf.
  destruct He as [|c it Hit|c it Hit|c it q o w t Hit Hq Hpos|now v Hc Hm];
    try done.
  - eapply db_wf_ext; [apply ensure_items|apply ensure_next_id|done].
  - eapply db_wf_ext; [| |exact Hwf]; done.
  - eapply db_wf_ext; [| |exact Hwf]; done.
  - eapply db_wf_ext; [apply ensure_items|apply ensure_next_id|].
    by apply upsert_wf.
Qed.

Lemma effect_issued (d d' : db) : effect d d' → db_wf d → issued d → issued d'.
Proof.
  intros He Hwf [Hrows Hevs].
  pose proof (effect_wf d d' He Hwf) as Hwf'.
  assert (Hens : ∀ d0 c it, items d0 !! c = Some it → db_wf d0 →
            (∀ i q, inventory_onhand d0 !! i = Some q → (i < next_id d0)%N) →
            ∀ i q, inventory_onhand (ensureOnHandRow (item_id it) d0) !! i = Some q →
                   (i < next_id d0)%N).
  { intros d0 c it Hit Hwf0 Hr i q. destruct (decide (item_id it = i)) as [<-|Hne].
    - intros _. by eapply (wf_issued d0 Hwf0).
    - rewrite ensure_lookup_ne by done. apply Hr. }
  assert (Hins : ∀ c it x, items d !! c = Some it →
            ∀ i q, <[item_id it := x]> (inventory_onhand d) !! i = Some q →
                   (i < next_id d)%N).
  { intros c it x Hit i q. destruct (decide (item_id it = i)) as [<-|Hne].
    - intros _. by eapply (wf_issued d Hwf).
    - rewrite lookup_insert_ne by done. apply Hrows. }
  assert (Hsnoc : ∀ c it ev0, items d !! c = Some it → ev_item_id ev0 = item_id it →
            ∀ ev, ev ∈ inventory_events d ++ [ev0] → (ev_item_id ev < next_id d)%N).
  { intros c it ev0 Hit Hid ev Hin. apply elem_of_app in Hin as [Hin|Hin].
    - by apply Hevs.
    - apply list_elem_of_singleton in Hin as ->. rewrite Hid.
      by eapply (wf_issued d Hwf). }
  destruct He as [|c it Hit|c it Hit|c it q o w t Hit Hq Hpos|now v Hc Hm].
  - done.
  - split.
    + rewrite ensure_next_id. by eapply Hens.
    + by rewrite ensure_events, ensure_next_id.
  - split; simpl; [by eapply Hins|by eapply Hsnoc].
  - split; simpl; [by eapply Hins|by eapply Hsnoc].
  - destruct (upsert_items now v d) as (Hitems & Hids).
    destruct (upsert_frame now v d) as (Hoh & Hev).
    set (d1 := (insert_item_on_conflict_update now v d).1) in *.
    set (new := (insert_item_on_conflict_update now v d).2) in *.
    assert (Hle : (next_id d ≤ next_id d1)%N).
    { destruct Hids as [(_ & _ & _ & ->)|(_ & _ & ->)]; lia. }
    assert (Hwf1 : db_wf d1) by by apply upsert_wf.
    split.
    + rewrite ensure_next_id.
      eapply (Hens d1 (v_ScannedCode v) new); [|done|].
      * by rewrite Hitems, lookup_insert_eq.
      * intros i q. rewrite Hoh. intros Hi. apply Hrows in Hi. lia.
    + rewrite ensure_events, ensure_next_id, Hev.
      intros ev Hin. apply Hevs in Hin. lia.
Qed.

(** The invariants of the server, together. *)
Lemma reachable_invariants (d : db) :
  reachable d → db_wf d ∧ issued d ∧ ledgered d ∧ keyed d ∧ balanced d.
Proof.
  induction 1 as [|now r d _ (Hwf & Hiss & Hled & Hkey & Hbal)].
  - unfold empty_db. repeat split; try (intros *; simpl; by rewrite ?lookup_empty).
    + intros ev. simpl. by intros ?%elem_of_nil.
  - pose proof (handle_effect now r d) as He.
    split; [by eapply effect_wf|].
    split; [by eapply effect_issued|].
    split; [by eapply effect_ledgered|].
    split; [by eapply effect_keyed|by eapply effect_balanced].
Qed.

(** ** Histories *)

Lemma serve_grows (calls : list (string * request)) (d : db) :
  (∀ j, is_Some (inventory_onhand d !! j) →
        is_Some (inventory_onhand (serve calls d).1 !! j))
  ∧ inventory_events d `prefix_of` inventory_events (serve calls d).1
  ∧ (∀ c it, items d !! c = Some it →
       ∃ it', items (serve calls d).1 !! c = Some it' ∧ item_id it' = item_id it)
  ∧ (next_id d ≤ next_id (serve calls d).1)%N.
Proof.
  revert d. induction calls as [|[now r] calls IH]; intros d.
  - simpl. repeat split; try done. intros c it Hit. by exists it.
  - rewrite serve_cons. simpl.
    destruct (effect_grows d _ (handle_effect now r d)) as (Hr & He & Hi & Hn).
    destruct (IH (handle now r d).1) as (Hr' & He' & Hi' & Hn').
    repeat split.
    + intros j Hj. by apply Hr', Hr.
    + by etrans.
    + intros c it Hit. destruct (Hi c it Hit) as (it1 & Hit1 & <-).
      by apply Hi'.
    + lia.
Qed.

(** X2. Whatever requests are served, the event log only grows at its end:
    the log before is a prefix of the log after, so no event is ever changed
    or deleted.  Likewise no row of the ledger is deleted, and a scan code of
    the catalog stays in the catalog with the identifier it had. *)
Theorem history_is_kept (calls : list (string * request)) (d : db) :
  inventory_events d `prefix_of` inventory_events (serve calls d).1
  ∧ (∀ j, is_Some (inventory_onhand d !! j) →
          is_Some (inventory_onhand (serve calls d).1 !! j))
  ∧ (∀ c it, items d !! c = Some it →
       ∃ it', items (serve calls d).1 !! c = Some it' ∧ item_id it' = item_id it).
Proof.
  destruct (serve_grows calls d) as (Hr & He & Hi & _). by repeat split.
Qed.

(** X3. In every state the server can reach, the ledger agrees with the
    event log for every item: the quantity on hand is the number of add
    events of the item less the number of its remove events. *)
Theorem ledger_matches_log (d : db) (i : N) :
  reachable d →
  onHand_of i d
  = Z.of_nat (length (events_of i add d)) - Z.of_nat (length (events_of i remove d)).
Proof. intros Hd. by apply reachable_invariants. Qed.

Lemma ledger_matches_log_witness :
  let d := (serve [("2025-01-01T00:00:00Z", POST_items widget_body);
                   ("2025-01-02T00:00:00Z", POST_inventory_add (Some "X1"));
                   ("2025-01-03T00:00:00Z", POST_inventory_add (Some "X1"));
                   ("2025-01-04T00:00:00Z",
                    POST_inventory_remove_confirm widget_confirm)]
              empty_db).1 in
  (onHand_of 0 d = 1 ∧ length (events_of 0 add d) = 2%nat)
  ∧ onHand_of 0 d
    = Z.of_nat (length (events_of 0 add d)) - Z.of_nat (length (events_of 0 remove d)).
Proof.
  intros d. split; [split; vm_compute; reflexivity|].
  apply (ledger_matches_log d 0).
  apply serve_reachable, reachable_empty.
Defined.

(** X4. In every state the server can reach, every item of the catalog has
    its row in the ledger; it is stored under its own scan code, which is
    not empty, and has a model; no two scan codes share an identifier; and
    every identifier in the catalog, the ledger and the event log was issued
    by the generator. *)
Theorem reachable_catalog_is_consistent (d : db) (c : string) (it : item) :
  reachable d → items d !! c = Some it →
  is_Some (inventory_onhand d !! item_id it)
  ∧ ScannedCode it = c ∧ c ≠ "" ∧ Model it ≠ ""
  ∧ (item_id it < next_id d)%N
  ∧ (∀ c' it', items d !! c' = Some it' → item_id it' = item_id it → c' = c)
  ∧ (∀ j q, inventory_onhand d !! j = Some q → (j < next_id d)%N)
  ∧ (∀ ev, ev ∈ inventory_events d → (ev_item_id ev < next_id d)%N).
Proof.
  intros Hd Hit.
  destruct (reachable_invariants d Hd) as (Hwf & (Hrows & Hevs) & Hled & Hkey & _).
  destruct (Hkey c it Hit) as (Hc & Hne & Hm).
  split; [by eapply Hled|]. repeat split; try done.
  - by eapply (wf_issued d Hwf).
  - intros c' it' Hit' Hid. by eapply (wf_distinct d Hwf).
Qed.

Lemma reachable_catalog_is_consistent_witness :
  let d := (serve [("2025-01-01T00:00:00Z", POST_items widget_body);
                   ("2025-01-02T00:00:00Z", POST_inventory_add (Some "X1"))]
              empty_db).1 in
  let it := mkItem 0 "2025-01-01T00:00:00Z" "X1" None "Widget" None None None
                   None None None None None in
  is_Some (inventory_onhand d !! item_id it)
  ∧ ScannedCode it = "X1" ∧ "X1" ≠ "" ∧ Model it ≠ ""
  ∧ (item_id it < next_id d)%N
  ∧ (∀ c' it', items d !! c' = Some it' → item_id it' = item_id it → c' = "X1")
  ∧ (∀ j q, inventory_onhand d !! j = Some q → (j < next_id d)%N)
  ∧ (∀ ev, ev ∈ inventory_events d → (ev_item_id ev < next_id d)%N).
Proof.
  intros d it.
  apply (reachable_catalog_is_consistent d "X1" it).
  - apply serve_reachable, reachable_empty.
  - vm_compute; reflexivity.
Defined.

(** ** The catalog write *)

(** The write, when the body has a scan code and a model. *)
Lemma post_items_accepted (now : string) (b : item_body) (d : db)
    (code model : string) :
  body_ScannedCode b = Some code → code ≠ "" →
  body_Model b = Some model → model ≠ "" →
  ∃ v, v_ScannedCode v = code ∧ v_Model v = model
     ∧ v_InventoryDate v = Some (coalesce (body_InventoryDate b) now)
     ∧ v_Brand v = body_Brand b ∧ v_Size v = body_Size b
     ∧ v_Color v = body_Color b ∧ v_Notes v = body_Notes b
     ∧ v_SoldOrderNum v = body_SoldOrderNum b
     ∧ v_PurchasedFrom v = body_PurchasedFrom b
     ∧ v_PaintThickness v = number_or_null (body_PaintThickness b)
     ∧ v_Price v = number_or_null (body_Price b)
     ∧ v_Qty v = number_or_null (body_Qty b)
     ∧ post_items now b d =
         (ensureOnHandRow (item_id (insert_item_on_conflict_update now v d).2)
            (insert_item_on_conflict_update now v d).1,
          Created_item (insert_item_on_conflict_update now v d).2).
Proof.
  intros Hc Hcne Hm Hmne. unfold post_items, transaction.
  rewrite Hc, Hm, (falsy_code _ Hcne), (falsy_code _ Hmne). simpl.
  eexists (mkItemValues _ _ _ _ _ _ _ _ _ _ _ _). simpl.
  repeat split. by destruct (insert_item_on_conflict_update _ _ _).
Qed.


(** X7. A catalog write never changes what is on hand of any item, nor the
    event log, whatever the body holds (its [Qty] is a field of the row, not
    a stock level); and it deletes no row of the catalog. *)
Theorem catalog_write_leaves_stock_alone (now : string) (b : item_body) (d : db) :
  (∀ j, onHand_of j (post_items now b d).1 = onHand_of j d)
  ∧ inventory_events (post_items now b d).1 = inventory_events d
  ∧ (∀ c it, items d !! c = Some it →
       ∃ it', items (post_items now b d).1 !! c = Some it'
              ∧ item_id it' = item_id it).
Proof.
  split; [|split].
  - intros j. destruct (post_items_cases now b d) as [->|(v & _ & _ & ->)]; [done|].
    simpl. rewrite ensure_onHand_of. unfold onHand_of.
    by rewrite (proj1 (upsert_frame now v d)).
  - destruct (post_items_cases now b d) as [->|(v & _ & _ & ->)]; [done|].
    simpl. by rewrite ensure_events, (proj2 (upsert_frame now v d)).
  - by destruct (effect_grows d _ (post_items_effect now b d)) as (_ & _ & Hi & _).
Qed.





Lemma db_eta (d : db) :
  {| items := items d; inventory_onhand := inventory_onhand d;
     inventory_events := inventory_events d; next_id := next_id d |} = d.
Proof. by destruct d. Qed.

(** The statement run again with the same dated parameters, once the ledger
    row is there, changes nothing. *)
Lemma upsert_again (now now' : string) (v : item_values) (d : db) (date : string) :
  v_InventoryDate v = Some date →
  let u := insert_item_on_conflict_update now v d in
  insert_item_on_conflict_update now' v (ensureOnHandRow (item_id u.2) u.1)
  = (ensureOnHandRow (item_id u.2) u.1, u.2).
Proof.
  intros Hdate u.
  destruct (upsert_items now v d) as (Hitems & _). fold u in Hitems.
  set (X := ensureOnHandRow (item_id u.2) u.1).
  assert (HX : items X = <[v_ScannedCode v := u.2]> (items d))
    by (subst X; by rewrite ensure_items).
  assert (Hrow : u.2 = mkItem (item_id u.2) date (ScannedCode u.2) (v_Brand v)
                         (v_Model v) (v_Size v) (v_Color v) (v_Notes v)
                         (v_SoldOrderNum v) (v_PurchasedFrom v)
                         (v_PaintThickness v) (v_Price v) (v_Qty v)).
  { subst u. unfold insert_item_on_conflict_update.
    destruct (items d !! v_ScannedCode v); simpl; by rewrite Hdate. }
  unfold insert_item_on_conflict_update at 1.
  rewrite HX, lookup_insert_eq, Hdate. simpl.
  rewrite <- Hrow, insert_insert_eq, <- HX. by rewrite db_eta.
Qed.

Lemma dated_write_again (now now' : string) (b : item_body)
    (d : db) (code model date : string) :
  body_ScannedCode b = Some code → code ≠ "" →
  body_Model b = Some model → model ≠ "" →
  body_InventoryDate b = Some date →
  post_items now' b (post_items now b d).1
  = ((post_items now b d).1, (post_items now b d).2).
Proof.
  intros Hc Hcne Hm Hmne Hdate.
  set (v := mkItemValues (Some date) code (body_Brand b) model (body_Size b)
              (body_Color b) (body_Notes b) (body_SoldOrderNum b)
              (body_PurchasedFrom b) (number_or_null (body_PaintThickness b))
              (number_or_null (body_Price b)) (number_or_null (body_Qty b))).
  assert (Hpost : ∀ t d0,
            post_items t b d0
            = (ensureOnHandRow (item_id (insert_item_on_conflict_update t v d0).2)
                 (insert_item_on_conflict_update t v d0).1,
               Created_item (insert_item_on_conflict_update t v d0).2)).
  { intros t d0. unfold post_items, transaction.
    rewrite Hc, Hm, Hdate, (falsy_code _ Hcne), (falsy_code _ Hmne). simpl.
    fold v. by destruct (insert_item_on_conflict_update t v d0). }
  rewrite (Hpost now d). simpl. rewrite (Hpost now').
  rewrite (upsert_again now now' v d date eq_refl). simpl.
  f_equal. eapply ensure_present, ensure_lookup.
Qed.

(** X10. An accepted catalog write that carries its date can be repeated
    at any later time without effect: the second write leaves the tables as
    the first left them and answers with the same row. *)
Theorem dated_catalog_write_is_idempotent (now now' : string) (b : item_body)
    (d : db) (code model date : string) :
  body_ScannedCode b = Some code → code ≠ "" →
  body_Model b = Some model → model ≠ "" →
  body_InventoryDate b = Some date →
  post_items now' b (post_items now b d).1
  = ((post_items now b d).1, (post_items now b d).2).
Proof. apply dated_write_again. Qed.

Lemma dated_catalog_write_is_idempotent_witness :
  let b := mkItemBody (Some "2024-05-05T10:00:00.000Z") (Some "X1") None
                      (Some "Widget 2") None None None None None
                      num_absent num_absent num_absent in
  post_items "2025-02-02T00:00:00Z" b
    (post_items "2025-01-01T00:00:00Z" b (widget_db 2)).1
  = ((post_items "2025-01-01T00:00:00Z" b (widget_db 2)).1,
     (post_items "2025-01-01T00:00:00Z" b (widget_db 2)).2).
Proof.
  intros b.
  apply (dated_catalog_write_is_idempotent "2025-01-01T00:00:00Z"
           "2025-02-02T00:00:00Z" b (widget_db 2) "X1" "Widget 2"
           "2024-05-05T10:00:00.000Z"); first [reflexivity | discriminate].
Defined.

(** ** Adding, then removing *)

(** X11. For an item of the catalog whose quantity on hand is not
    negative, [AddOne] followed by a [ConfirmRemove] whose date (if the body
    has one) is a timestamp is answered 201 and then [REMOVED] with the
    quantity there was at the start; afterwards every quantity on hand is
    what it was, the catalog is unchanged, and the log has gained one add
    event and one remove event of the item.  With a date that is no
    timestamp the confirmation is answered 500 instead, and the unit added
    stays on hand. *)
Theorem add_then_confirm_restores (now : string) (b : confirm_body) (code : string)
    (d : db) (it : item) :
  barcode b = Some code → code ≠ "" →
  items d !! code = Some it →
  0 ≤ onHand_of (item_id it) d →
  let added := post_inventory_add (Some code) d in
  let removed := post_inventory_remove_confirm now b added.1 in
  let ev_add := mkEvent (item_id it) add 1 None None None in
  added.2 = Created_add ev_add (item_id it) (Model it)
  ∧ match date_subtracted (dateSubtracted b) now with
    | Some date =>
        let ev_remove := mkEvent (item_id it) remove 1 (orderId b)
                                 (whereBoughtFrom b) (Some date) in
        removed.2 = REMOVED None (onHand_of (item_id it) d) ev_remove
        ∧ (∀ j, onHand_of j removed.1 = onHand_of j d)
        ∧ items removed.1 = items d
        ∧ inventory_events removed.1 = inventory_events d ++ [ev_add; ev_remove]
    | None =>
        removed = (added.1, Failure 500 SERVER_ERROR None)
        ∧ onHand_of (item_id it) removed.1 = onHand_of (item_id it) d + 1
    end.
Proof.
  intros Hb Hne Hit Hq added removed ev_add.
  subst added removed. rewrite (add_found code d it Hne Hit). simpl.
  set (q := onHand_of (item_id it) d) in *.
  split; [done|].
  destruct (date_subtracted (dateSubtracted b) now) as [date|] eqn:Hdate; cycle 1.
  { rewrite (confirm_refused_date now b code _ it (q + 1) Hb Hne);
      [|done|by simpl; rewrite lookup_insert_eq|lia|done].
    split; [done|]. unfold onHand_of at 1. simpl. by rewrite lookup_insert_eq. }
  rewrite (confirm_in_stock now b code _ it (q + 1) date Hb Hne);
    [|done|by simpl; rewrite lookup_insert_eq|lia|done].
  simpl. replace (q + 1 - 1) with q by lia.
  repeat split.
  - intros j. unfold onHand_of at 1. simpl. rewrite insert_insert_eq.
    destruct (decide (item_id it = j)) as [<-|Hj].
    + by rewrite lookup_insert_eq.
    + by rewrite lookup_insert_ne.
  - by rewrite <- app_assoc.
Qed.

Lemma add_then_confirm_restores_witness :
  let added := post_inventory_add (Some "X1") (widget_db 0) in
  let removed :=
    post_inventory_remove_confirm "2025-01-01T00:00:00Z" widget_confirm added.1 in
  let ev_add := mkEvent (item_id widget) add 1 None None None in
  let ev_remove := mkEvent (item_id widget) remove 1 None None
                           (Some "2025-01-01T00:00:00Z") in
  added.2 = Created_add ev_add (item_id widget) (Model widget)
  ∧ removed.2 = REMOVED None (onHand_of (item_id widget) (widget_db 0)) ev_remove
  ∧ (∀ j, onHand_of j removed.1 = onHand_of j (widget_db 0))
  ∧ items removed.1 = items (widget_db 0)
  ∧ inventory_events removed.1
    = inventory_events (widget_db 0) ++ [ev_add; ev_remove].
Proof.
  apply (add_then_confirm_restores "2025-01-01T00:00:00Z" widget_confirm "X1"
           (widget_db 0) widget).
  - reflexivity.
  - discriminate.
  - vm_compute; reflexivity.
  - vm_compute; discriminate.
Defined.

(** X26. A confirmation is all or nothing.  Either it is refused, and then
    the tables are what they were: also when the event cannot be written
    after the ledger row was decremented, as with a date that is no
    timestamp.  Or it is answered [REMOVED], and then the ledger row of the
    item holds one unit less, the log has gained exactly one remove event of
    the item, with the order reference and the source of the request, and
    nothing else has changed. *)
Theorem confirm_is_all_or_nothing (now : string) (b : confirm_body) (d : db) :
  (∃ status e o,
     post_inventory_remove_confirm now b d = (d, Failure status e o))
  ∨ (∃ code it q ev d',
       barcode b = Some code ∧ items d !! code = Some it
       ∧ inventory_onhand d !! item_id it = Some q ∧ q > 0
       ∧ post_inventory_remove_confirm now b d = (d', REMOVED None (q - 1) ev)
       ∧ inventory_onhand d' = <[item_id it := q - 1]> (inventory_onhand d)
       ∧ inventory_events d' = inventory_events d ++ [ev]
       ∧ ev_item_id ev = item_id it ∧ ev_action ev = remove ∧ ev_qty ev = 1
       ∧ Order_Id ev = orderId b ∧ Where_bought_from ev = whereBoughtFrom b
       ∧ date_subtracted (dateSubtracted b) now = Date_Subtracted ev
       ∧ items d' = items d ∧ next_id d' = next_id d).
Proof.
  destruct (confirm_cases now b d)
    as [Hfail|(code & it & q & date & Hb & Hne & Hit & Hq & Hpos & Hdate)];
    [by left|].
  right. exists code, it, q. eexists _, _.
  rewrite (confirm_in_stock now b code d it q date Hb Hne Hit Hq Hpos Hdate).
  by repeat split.
Qed.

(** ** The statement of a search *)

Lemma get_property_own (key : string) (col : column) :
  get_property FIELD_MAP key = own col ↔ FIELD_MAP !! key = Some col.
Proof.
  unfold get_property. destruct (FIELD_MAP !! key) as [c|].
  - split; by intros [= ->].
  - by case_bool_decide.
Qed.

(** One turn of the loop, for a key of [FIELD_MAP]. *)
Lemma add_filter_step (key : string) (values : list string) (col : column)
    (wh : list condition) (ps : list sql_param) (i : nat) :
  FIELD_MAP !! key = Some col →
  add_filter (Some (wh, ps, i)) (key, values)
  = Some (match values with
          | [] => (wh, ps, i)
          | _ => (wh ++ [LOWER_eq_ANY col i],
                  ps ++ [array_param (map toLowerCase values)], S i)
          end).
Proof.
  intros Hcol. apply get_property_own in Hcol. simpl.
  destruct values as [|v values]; [done|].
  rewrite bool_decide_eq_false_2 by done. by rewrite Hcol.
Qed.

Lemma filter_keys_columns (query : gmap string qval) :
  Forall (λ e : string * list string, is_Some (FIELD_MAP !! e.1))
    (map (λ k, (k, parseList query k)) filter_keys).
Proof.
  unfold filter_keys. simpl.
  repeat (apply Forall_cons; split; [by eexists; vm_compute|]).
  apply Forall_nil_2.
Qed.

Section Meaning.

Variable text_of_number : number → string.
Variable text_of_timestamp : string → string.

(** A conjunct does not see the parameters pushed after its own. *)
Lemma holds_app (ps ps' : list sql_param) (it : item) (c : condition) :
  (pred (cond_index c) < length ps)%nat →
  holds text_of_number text_of_timestamp (ps ++ ps') it c = holds text_of_number text_of_timestamp ps it c.
Proof.
  intros Hlt. destruct c as [i|col i]; simpl in *; by rewrite lookup_app_l.
Qed.

Lemma forallb_holds_app (ps ps' : list sql_param) (it : item) (wh : list condition) :
  Forall (λ c, (pred (cond_index c) < length ps)%nat) wh →
  forallb (holds text_of_number text_of_timestamp (ps ++ ps') it) wh = forallb (holds text_of_number text_of_timestamp ps it) wh.
Proof.
  induction 1 as [|c wh Hc _ IH]; [done|]. simpl. by rewrite holds_app, IH.
Qed.

(** The loop, on the meaning of the clause it builds. *)
Lemma add_filter_meaning (it : item) (entries : list (string * list string))
    (wh : list condition) (ps : list sql_param) :
  Forall (λ e, is_Some (FIELD_MAP !! e.1)) entries →
  Forall (λ c, (pred (cond_index c) < length ps)%nat) wh →
  ∃ wh' ps' i',
    foldl add_filter (Some (wh, ps, S (length ps))) entries = Some (wh', ps', i')
    ∧ forallb (holds text_of_number text_of_timestamp ps' it) wh'
      = forallb (holds text_of_number text_of_timestamp ps it) wh
        && forallb (λ e, values_pass e.1 e.2 it) entries.
Proof.
  revert wh ps. induction entries as [|[key values] entries IH];
    intros wh ps Hown Hwh.
  - eexists _, _, _. split; [done|]. simpl. by rewrite andb_true_r.
  - apply Forall_cons in Hown as [[col Hcol] Hown]. simpl in Hcol.
    cbn [foldl]. rewrite (add_filter_step key values col wh ps _ Hcol).
    destruct values as [|v values].
    + destruct (IH wh ps Hown Hwh) as (wh' & ps' & i' & Hfold & Hmean).
      exists wh', ps', i'. split; [exact Hfold|]. by rewrite Hmean.
    + set (vs := v :: values) in *.
      set (ps1 := ps ++ [array_param (map toLowerCase vs)]).
      assert (Hlen : S (length ps) = length ps1)
        by (subst ps1; rewrite length_app; simpl; lia).
      rewrite Hlen.
      destruct (IH (wh ++ [LOWER_eq_ANY col (length ps1)]) ps1 Hown)
        as (wh' & ps' & i' & Hfold & Hmean).
      { apply Forall_app. split.
        - eapply Forall_impl; [exact Hwh|]. simpl. intros c Hc. lia.
        - apply Forall_singleton. simpl. lia. }
      exists wh', ps', i'. split; [exact Hfold|]. rewrite Hmean.
      rewrite forallb_app. simpl. rewrite andb_true_r.
      subst ps1. rewrite forallb_holds_app by done.
      rewrite <- andb_assoc. f_equal. f_equal.
      rewrite <- Hlen. simpl. rewrite lookup_app_r by lia.
      rewrite Nat.sub_diag. simpl.
      unfold values_pass. subst vs. by rewrite Hcol.
Qed.

Lemma search_meaning (query : gmap string qval) :
  ∃ st, get_items_search query = Search_rows st
      ∧ limit st = 200%nat
      ∧ ∀ it, selects text_of_number text_of_timestamp st it
              = passes text_of_number text_of_timestamp query it.
Proof.
  unfold get_items_search, passes, text_passes, field_passes.
  set (qRaw := trim (from_option qval_toString "" (query !! "q"))).
  set (entries := map (λ k, (k, parseList query k)) filter_keys).
  assert (Hmap : ∀ it, forallb (λ e : string * list string, values_pass e.1 e.2 it)
                         entries
                       = forallb (λ key, values_pass key (parseList query key) it)
                           filter_keys).
  { intros it. subst entries. generalize filter_keys.
    induction l as [|k l IH]; [done|]. simpl. by rewrite IH. }
  case_bool_decide as Hq.
  - change 1%nat with (S (length (@nil sql_param))).
    assert (Hst : ∀ it, ∃ wh' ps' i',
              foldl add_filter (Some ([], [], S (length (@nil sql_param)))) entries
              = Some (wh', ps', i')
              ∧ forallb (holds text_of_number text_of_timestamp ps' it) wh'
                = forallb (holds text_of_number text_of_timestamp [] it) []
                  && forallb (λ e, values_pass e.1 e.2 it) entries).
    { intros it. apply add_filter_meaning; [apply filter_keys_columns|done]. }
    destruct (Hst widget) as (wh' & ps' & i' & Hfold & _). rewrite Hfold.
    eexists. split; [done|]. split; [done|]. intros it.
    destruct (Hst it) as (wh2 & ps2 & i2 & Hfold2 & Hmean).
    rewrite Hfold in Hfold2. injection Hfold2 as <- <- <-.
    unfold selects. simpl. by rewrite Hmean, Hmap.
  - set (p := "%" +:+ escape_like qRaw +:+ "%").
    change 2%nat with (S (length [text_param p])).
    assert (Hst : ∀ it, ∃ wh' ps' i',
              foldl add_filter (Some ([ILIKE_any 1], [text_param p],
                                      S (length [text_param p]))) entries
              = Some (wh', ps', i')
              ∧ forallb (holds text_of_number text_of_timestamp ps' it) wh'
                = forallb (holds text_of_number text_of_timestamp [text_param p] it) [ILIKE_any 1]
                  && forallb (λ e, values_pass e.1 e.2 it) entries).
    { intros it. apply add_filter_meaning; [apply filter_keys_columns|].
      apply Forall_singleton. simpl. lia. }
    destruct (Hst widget) as (wh' & ps' & i' & Hfold & _). rewrite Hfold.
    eexists. split; [done|]. split; [done|]. intros it.
    destruct (Hst it) as (wh2 & ps2 & i2 & Hfold2 & Hmean).
    rewrite Hfold in Hfold2. injection Hfold2 as <- <- <-.
    unfold selects. simpl params. simpl where_. rewrite Hmean, Hmap.
    simpl. by rewrite andb_true_r.
Qed.

(** X12. The rows a search selects are exactly the rows the request asks
    for: those in which the free text (if any) matches one of the twelve
    searched columns and, for every filterable field with values selected,
    the column is, letter case aside, one of the values.  Values of one
    field are alternatives; the fields and the free text all have to hold. *)
Theorem search_selects_what_is_asked (query : gmap string qval) :
  ∃ st, get_items_search query = Search_rows st
      ∧ limit st = 200%nat
      ∧ ∀ it, selects text_of_number text_of_timestamp st it
              = passes text_of_number text_of_timestamp query it.
Proof. apply search_meaning. Qed.

End Meaning.

(** The loop, on the shape of the clause it builds. *)
Lemma add_filter_bound (entries : list (string * list string))
    (wh : list condition) (ps : list sql_param) :
  Forall (λ e, is_Some (FIELD_MAP !! e.1)) entries →
  well_bound (mkSearch wh ps 200) →
  ∃ wh' ps' i',
    foldl add_filter (Some (wh, ps, S (length ps))) entries = Some (wh', ps', i')
    ∧ well_bound (mkSearch wh' ps' 200)
    ∧ length wh' = (length wh + length (filter (λ e, e.2 ≠ []) entries))%nat.
Proof.
  revert wh ps. induction entries as [|[key values] entries IH];
    intros wh ps Hown Hwb.
  - eexists _, _, _. split; [done|]. split; [done|]. simpl. lia.
  - apply Forall_cons in Hown as [[col Hcol] Hown]. simpl in Hcol.
    cbn [foldl]. rewrite (add_filter_step key values col wh ps _ Hcol).
    destruct values as [|v values].
    + destruct (IH wh ps Hown Hwb) as (wh' & ps' & i' & Hfold & Hwb' & Hlen).
      exists wh', ps', i'. split; [exact Hfold|]. split; [exact Hwb'|].
      rewrite filter_cons. simpl. exact Hlen.
    + set (vs := v :: values) in *.
      set (ps1 := ps ++ [array_param (map toLowerCase vs)]).
      set (wh1 := wh ++ [LOWER_eq_ANY col (S (length ps))]).
      destruct Hwb as [Hlen Hwb]. simpl in Hlen, Hwb.
      assert (Hlen1 : S (length ps) = length ps1)
        by (subst ps1; rewrite length_app; simpl; lia).
      assert (Hwb1 : well_bound (mkSearch wh1 ps1 200)).
      { split; simpl.
        - subst wh1 ps1. rewrite !length_app. simpl. lia.
        - intros k c Hk. subst wh1 ps1.
          destruct (decide (k < length wh)%nat) as [Hlt|Hge].
          + rewrite lookup_app_l in Hk by done.
            destruct (Hwb k c Hk) as [Hi Hp]. split; [done|].
            rewrite lookup_app_l by lia. exact Hp.
          + rewrite lookup_app_r in Hk by lia.
            destruct (k - length wh)%nat as [|n] eqn:Hn; [|by destruct n].
            injection Hk as <-. simpl. split; [lia|].
            rewrite lookup_app_r by lia.
            replace (k - length ps)%nat with 0%nat by lia.
            eexists. split; [done|]. done. }
      rewrite Hlen1.
      destruct (IH wh1 ps1 Hown Hwb1) as (wh' & ps' & i' & Hfold & Hwb' & Hlen').
      exists wh', ps', i'. split; [exact Hfold|]. split; [exact Hwb'|].
      rewrite Hlen'. subst wh1. rewrite length_app, filter_cons. simpl.
      lia.
Qed.

(** X13. In the statement of a search the conjuncts and the parameters line
    up: the k-th conjunct reads [$k+1], every parameter read is bound, the
    free-text conjunct to a text and a filter to a non-empty array.  There is
    one conjunct for the free text, when it is not blank, and one for each
    filterable field with a value selected; so a request without text and
    without filters has no condition at all, and the limit is always 200. *)
Theorem search_statement_is_well_bound (query : gmap string qval) :
  ∃ st, get_items_search query = Search_rows st
      ∧ well_bound st
      ∧ limit st = 200%nat
      ∧ length (where_ st)
        = ((if bool_decide (trim (from_option qval_toString "" (query !! "q")) = "")
            then 0 else 1)
           + length (filter (λ k, parseList query k ≠ []) filter_keys))%nat.
Proof.
  unfold get_items_search.
  set (qRaw := trim (from_option qval_toString "" (query !! "q"))).
  set (entries := map (λ k, (k, parseList query k)) filter_keys).
  assert (Hcount : length (filter (λ e : string * list string, e.2 ≠ []) entries)
                   = length (filter (λ k, parseList query k ≠ []) filter_keys)).
  { subst entries. generalize filter_keys.
    induction l as [|k l IH]; [done|]. simpl. rewrite !filter_cons. simpl.
    case_decide; simpl; by rewrite IH. }
  case_bool_decide as Hq.
  - change 1%nat with (S (length (@nil sql_param))).
    destruct (add_filter_bound entries [] [] (filter_keys_columns query))
      as (wh' & ps' & i' & -> & Hwb & Hlen).
    { split; [done|]. intros k c Hk. simpl in Hk. by rewrite lookup_nil in Hk. }
    eexists. split; [done|]. split; [|split; [done|]].
    + by destruct Hwb.
    + simpl. by rewrite Hlen, Hcount.
  - set (p := "%" +:+ escape_like qRaw +:+ "%").
    change 2%nat with (S (length [text_param p])).
    destruct (add_filter_bound entries [ILIKE_any 1] [text_param p]
                (filter_keys_columns query))
      as (wh' & ps' & i' & -> & Hwb & Hlen).
    { split; [done|]. intros [|k] c Hk; simpl in Hk; [|by destruct k].
      injection Hk as <-. split; [done|]. by eexists. }
    eexists. split; [done|]. split; [|split; [done|]].
    + by destruct Hwb.
    + simpl. by rewrite Hlen, Hcount.
Qed.

(** ** The values of a filter *)

Lemma trim_end_idem (s : string) : trim_end (trim_end s) = trim_end s.
Proof.
  induction s as [|c s IH]; [done|]. cbn [trim_end].
  destruct (is_space c && bool_decide (trim_end s = EmptyString)) eqn:E; [done|].
  cbn [trim_end]. by rewrite IH, E.
Qed.

Lemma trim_start_unspaced (c : ascii) (s : string) :
  is_space c = false → trim_start (String c s) = String c s.
Proof. intros Hc. cbn [trim_start]. by rewrite Hc. Qed.

(** What [trim_start] returns is empty or starts with a character that is
    not white space. *)
Lemma trim_start_head (s : string) :
  trim_start s = EmptyString
  ∨ ∃ c t, trim_start s = String c t ∧ is_space c = false.
Proof.
  induction s as [|c s IH]; [by left|]. cbn [trim_start].
  destruct (is_space c) eqn:Hc; [done|]. right. by exists c, s.
Qed.

Lemma trim_end_head (c : ascii) (s : string) :
  is_space c = false → trim_end (String c s) = String c (trim_end s).
Proof. intros Hc. cbn [trim_end]. by rewrite Hc. Qed.

Lemma trim_idem (s : string) : trim (trim s) = trim s.
Proof.
  unfold trim. destruct (trim_start_head s) as [->|(c & t & -> & Hc)]; [done|].
  rewrite trim_end_head by done. rewrite trim_start_unspaced by done.
  rewrite trim_end_head by done. by rewrite trim_end_idem.
Qed.

Lemma has_char_trim_start (c : ascii) (s : string) :
  has_char c s = false → has_char c (trim_start s) = false.
Proof.
  induction s as [|c' s IH]; [done|]. cbn [has_char trim_start].
  intros H. destruct (is_space c'); [|done].
  apply orb_false_iff in H as [_ H]. by apply IH.
Qed.

Lemma has_char_trim_end (c : ascii) (s : string) :
  has_char c s = false → has_char c (trim_end s) = false.
Proof.
  induction s as [|c' s IH]; [done|]. cbn [has_char trim_end].
  intros H. apply orb_false_iff in H as [Hc H].
  destruct (is_space c' && _); [done|]. cbn [has_char]. by rewrite Hc, IH.
Qed.

Lemma has_char_trim (c : ascii) (s : string) :
  has_char c s = false → has_char c (trim s) = false.
Proof. intros H. by apply has_char_trim_end, has_char_trim_start. Qed.

Lemma split_comma_single (s : string) :
  has_char "," s = false → split_comma s = [s].
Proof.
  induction s as [|c s IH]; [done|]. cbn [has_char split_comma].
  intros H. apply orb_false_iff in H as [Hc H].
  rewrite Ascii.eqb_sym, Hc. by rewrite IH.
Qed.

Lemma split_comma_app (v rest : string) :
  has_char "," v = false →
  split_comma (v +:+ String "," rest) = v :: split_comma rest.
Proof.
  induction v as [|c v IH]; [done|]. cbn [has_char].
  intros H. apply orb_false_iff in H as [Hc H].
  change (String c v +:+ String "," rest) with (String c (v +:+ String "," rest)).
  cbn [split_comma]. rewrite Ascii.eqb_sym, Hc. by rewrite IH.
Qed.

Lemma split_comma_no_comma (s : string) :
  Forall (λ x, has_char "," x = false) (split_comma s).
Proof.
  induction s as [|c s IH]; [by repeat constructor|].
  cbn [split_comma]. destruct (Ascii.eqb c ",") eqn:Hc.
  - by constructor.
  - destruct (split_comma s) as [|h t].
    { constructor; [|constructor]. cbn [has_char]. by rewrite Ascii.eqb_sym, Hc. }
    apply Forall_cons in IH as [Hh Ht]. constructor; [|done].
    cbn [has_char]. by rewrite Ascii.eqb_sym, Hc, Hh.
Qed.

(** X14. The values the search reads for a field are never empty, carry no
    white space at either end and contain no comma: the parameter is split
    at its commas, each part is trimmed and the blank parts are dropped. *)
Theorem parsed_values_are_clean (query : gmap string qval) (k x : string) :
  x ∈ parseList query k →
  x ≠ "" ∧ trim x = x ∧ has_char "," x = false.
Proof.
  unfold parseList. destruct (qval_falsy (query !! k)); [by intros ?%elem_of_nil|].
  intros Hx. apply list_elem_of_filter in Hx as [Hne Hx].
  apply list_elem_of_fmap in Hx as (y & -> & Hy).
  split; [done|]. split; [apply trim_idem|].
  apply has_char_trim.
  pose proof (split_comma_no_comma (from_option qval_toString "" (query !! k))) as Hall.
  rewrite Forall_forall in Hall. by apply Hall.
Qed.

Lemma parsed_values_are_clean_witness :
  "Thermos" ∈ parseList {[ "brand" := QStr " Stanley ,, Thermos " ]} "brand"
  ∧ "Thermos" ≠ "" ∧ trim "Thermos" = "Thermos" ∧ has_char "," "Thermos" = false.
Proof.
  assert (Hin : "Thermos" ∈ parseList {[ "brand" := QStr " Stanley ,, Thermos " ]}
                             "brand").
  { replace (parseList _ _) with ["Stanley"; "Thermos"] by (vm_compute; reflexivity).
    apply list_elem_of_further, list_elem_of_here. }
  split; [exact Hin|].
  exact (parsed_values_are_clean _ "brand" "Thermos" Hin).
Defined.

(** ** The fields of [DistinctValues] *)

Lemma FIELD_MAP_listed (f : string) :
  f ∈ filter_keys ↔ is_Some (FIELD_MAP !! f).
Proof.
  split.
  - unfold filter_keys. intros Hin.
    repeat (apply elem_of_cons in Hin as [->|Hin]; [by eexists; vm_compute|]).
    by apply elem_of_nil in Hin.
  - intros [col Hcol]. destruct (decide (f ∈ filter_keys)) as [|Hno]; [done|].
    by rewrite (FIELD_MAP_not_listed f Hno) in Hcol.
Qed.

(** X15. [DistinctValues] answers with the values of a column exactly when
    the field, taken in lower case, is one of the eight filterable names;
    the column is then the one [FIELD_MAP] gives.  The letter case of the
    field in the request does not matter. *)
Theorem distinct_accepts_the_filterable_fields (query : gmap string qval) :
  (∀ col, get_items_distinct query = Distinct_rows col
          ↔ FIELD_MAP !! fieldParam query = Some col)
  ∧ ((∃ col, get_items_distinct query = Distinct_rows col)
     ↔ fieldParam query ∈ filter_keys)
  ∧ (∀ s, fieldParam {[ "field" := QStr s ]} = toLowerCase s).
Proof.
  assert (H1 : ∀ col, get_items_distinct query = Distinct_rows col
                      ↔ FIELD_MAP !! fieldParam query = Some col).
  { intros col. unfold get_items_distinct, get_property.
    destruct (FIELD_MAP !! fieldParam query) as [c|].
    - split; by intros [= ->].
    - by case_bool_decide. }
  split; [exact H1|]. split.
  - rewrite FIELD_MAP_listed. split; intros [col Hcol]; exists col; by apply H1.
  - intros s. unfold fieldParam. rewrite lookup_singleton_eq. simpl.
    case_bool_decide as Hs; [by subst|done].
Qed.

(** ** The free text, without a backslash *)

(** X16. For a free text without a backslash, the pattern the search sends
    matches a column exactly when the column contains the text, letter case
    aside: every [%] and [_] of the text stands for itself. *)
Theorem free_text_is_containment (q t : string) :
  has_char "\" q = false →
  ilike t ("%" +:+ escape_like q +:+ "%")
  = contains (toLowerCase q) (toLowerCase t).
Proof. apply ilike_is_containment. Qed.

Lemma free_text_is_containment_witness :
  ilike "Sale: 50% OFF_today" ("%" +:+ escape_like "50% off_" +:+ "%") = true
  ∧ ilike "Sale: 500 OFF today" ("%" +:+ escape_like "50% off_" +:+ "%") = false.
Proof.
  split.
  - rewrite (free_text_is_containment "50% off_" "Sale: 50% OFF_today");
      vm_compute; reflexivity.
  - rewrite (free_text_is_containment "50% off_" "Sale: 500 OFF today");
      vm_compute; reflexivity.
Defined.

(** ** The scan form *)

Section Scan.

Import ScanFlow.

(** A step back along [sends], and all the way. *)
Ltac back H :=
  inversion H; subst; clear H.

Ltac walk :=
  repeat match goal with
         | H : sends (Done _) _ |- _ => back H
         | H : sends (GET_item _ _) _ |- _ => back H
         | H : sends (GET_search _ _) _ |- _ => back H
         | H : sends (POST_add _ _) _ |- _ => back H
         | H : sends (POST_initiate _ _) _ |- _ => back H
         | H : sends (POST_items_form _ _) _ |- _ => back H
         | H : sends (match ?r with _ => _ end) _ |- _ => destruct r
         | H : sends ((λ _, _) _) _ |- _ => cbv beta in H
         end.


Lemma or_default_nonempty (x : option string) (dflt : string) :
  dflt ≠ "" → or_default x dflt ≠ "".
Proof.
  intros Hd. unfold or_default. destruct (falsy x) eqn:Hx; [done|].
  by apply falsy_false in Hx as (s & -> & Hs).
Qed.

Lemma codes_nonempty (e : env) :
  ADD_CODE e ≠ "" ∧ REMOVE_CODE e ≠ "" ∧ SEARCH_CODE e ≠ "".
Proof. repeat split; by apply or_default_nonempty. Qed.

Lemma handleSubmit_blank (e : env) (s : app) :
  trim (scanInput s) = "" → handleSubmit e s = Done s.
Proof. intros Hb. unfold handleSubmit. by rewrite Hb. Qed.

(** The scan of the search code in another mode enters search mode, and
    the effect on the mode then loads the first rows: one search, for the
    empty text and the filters in force. *)
Lemma search_code_loads_the_rows (e : env) (s : app) :
  let code := trim (scanInput s) in
  code = SEARCH_CODE e → code ≠ ADD_CODE e → code ≠ REMOVE_CODE e →
  mode s ≠ ScanSession.search →
  ∃ k, scan e s = GET_search (makeQueryString "" (filters s)) k.
Proof.
  intros code Hsea Hadd Hrem Hm.
  destruct (codes_nonempty e) as (_ & _ & Hs).
  unfold scan, handleSubmit. fold code.
  rewrite (bool_decide_eq_false_2 (code = "")) by congruence.
  rewrite (bool_decide_eq_false_2 (code = ADD_CODE e)) by done.
  rewrite (bool_decide_eq_false_2 (code = REMOVE_CODE e)) by done.
  rewrite (bool_decide_eq_true_2 (code = SEARCH_CODE e)) by done.
  cbn [bind]. unfold mode_effect, runSearch. simpl.
  destruct (mode s); try done; by eexists.
Qed.





(** X19. The add flow, client and server together.  In add mode, for a
    scanned text that is the scan code of an item of the catalog (white
    space around it aside), the form sends the lookup of the code; on the
    row the lookup finds it sends the add for that same code, which the
    server answers 201, with one more unit on hand; and on that answer the
    form shows the item as added and clears its input. *)
Theorem scan_in_add_mode_adds_one (e : env) (s : app) (d : db) (it : item) :
  let code := trim (scanInput s) in
  reachable d → mode s = ScanSession.add → ¬ is_code e code →
  get_items_code code d = Item_row it →
  ∃ k k' ev d',
    handleSubmit e s = GET_item code k
    ∧ k (Lookup_item it) = POST_add code k'
    ∧ post_inventory_add (Some code) d = (d', Created_add ev (item_id it) (Model it))
    ∧ onHand_of (item_id it) d' = onHand_of (item_id it) d + 1
    ∧ k' true = Done (set_scanInput "" (set_toast ("Added: " +:+ displayName it) s)).
Proof.
  intros code Hd Hm Hno Hget.
  unfold get_items_code, select_item in Hget.
  destruct (items d !! code) as [it'|] eqn:Hit; [|done]. injection Hget as ->.
  destruct (reachable_invariants d Hd) as (_ & _ & _ & Hkey & _).
  destruct (Hkey code it Hit) as (Hcode & Hne & _).
  unfold handleSubmit. fold code.
  rewrite !bool_decide_eq_false_2; [|intros ?; apply Hno; unfold is_code; auto..|done].
  rewrite Hm. eexists _, _, _, _. split; [done|]. cbv beta iota. rewrite Hcode.
  split; [done|]. rewrite (add_found code d it Hne Hit).
  split; [done|]. split; [|done].
  unfold onHand_of at 1. simpl. by rewrite lookup_insert_eq.
Qed.

Lemma scan_in_add_mode_adds_one_witness :
  let d := (serve [("2025-01-01T00:00:00Z", POST_items widget_body)] empty_db).1 in
  let s := scanning ScanSession.add " X1 " in
  let it := mkItem 0 "2025-01-01T00:00:00Z" "X1" None "Widget" None None None
                   None None None None None in
  ∃ k k' ev d',
    handleSubmit no_env s = GET_item (trim (scanInput s)) k
    ∧ k (Lookup_item it) = POST_add (trim (scanInput s)) k'
    ∧ post_inventory_add (Some (trim (scanInput s))) d
      = (d', Created_add ev (item_id it) (Model it))
    ∧ onHand_of (item_id it) d' = onHand_of (item_id it) d + 1
    ∧ k' true = Done (set_scanInput "" (set_toast ("Added: " +:+ displayName it) s)).
Proof.
  intros d s it.
  apply (scan_in_add_mode_adds_one no_env s d it).
  - apply serve_reachable, reachable_empty.
  - reflexivity.
  - vm_compute. intros [H|[H|H]]; discriminate H.
  - vm_compute; reflexivity.
Defined.

(** X20. The remove flow, client and server together.  In remove mode,
    for the scan code of an item with a quantity [q > 0] on hand, the form
    looks the code up and sends the initiate for it; the server answers
    [CONFIRM_REQUIRED] with [q] and changes nothing; the form opens the
    dialog with that answer.  "Yes" in the dialog (of the copy with the
    mobile layout) then sends the confirmation for the same code, which the
    server answers [REMOVED] with [q - 1], logging the order reference typed
    into the dialog. *)
Theorem scan_in_remove_mode_then_yes (e : env) (s : app) (d : db) (it : item)
    (now : string) (toISOString : string → string) (f : ScanSession.dialog)
    (ss : ScanSession.session) :
  let code := trim (scanInput s) in
  let q := onHand_of (item_id it) d in
  let view := mkInitiateItem (item_id it) (ScannedCode it) (Brand it) (Model it)
                             (Color it) (Size it) in
  reachable d → mode s = ScanSession.remove → ¬ is_code e code →
  get_items_code code d = Item_row it → q > 0 →
  ∃ k k' s1 b ev d',
    handleSubmit e s = GET_item code k
    ∧ k (Lookup_item it) = POST_initiate code k'
    ∧ post_inventory_remove_initiate (Some code) d = (d, CONFIRM_REQUIRED view q)
    ∧ k' (Initiate_confirm view q) = Done s1
    ∧ confirmRemove s1 = Some (ScanSession.mkPending view q)
    ∧ (ScanSession.confirmRemove ss = confirmRemove s1 →
       ScanSession.ConfirmRemoveModal toISOString ScanSession.onCancel
         AppMobile.onConfirm f ScanSession.Yes ss
       = (ss, [POST_inventory_remove_confirm b]))
    ∧ barcode b = Some code
    ∧ post_inventory_remove_confirm now b d = (d', REMOVED None (q - 1) ev)
    ∧ onHand_of (item_id it) d' = q - 1
    ∧ Order_Id ev = ScanSession.or_null (ScanSession.orderId_input f).
Proof.
  intros code q view Hd Hm Hno Hget Hq.
  unfold get_items_code, select_item in Hget.
  destruct (items d !! code) as [it'|] eqn:Hit; [|done]. injection Hget as ->.
  destruct (reachable_invariants d Hd) as (_ & _ & Hled & Hkey & _).
  destruct (Hkey code it Hit) as (Hcode & Hne & _).
  destruct (Hled code it Hit) as [q0 Hq0].
  assert (Hqq : q0 = q) by (subst q; unfold onHand_of; by rewrite Hq0).
  subst q0.
  unfold handleSubmit. fold code.
  rewrite !bool_decide_eq_false_2; [|intros ?; apply Hno; unfold is_code; auto..|done].
  rewrite Hm.
  set (b := mkConfirmBody (Some code)
              (ScanSession.or_null (ScanSession.orderId_input f))
              (ScanSession.or_null (ScanSession.whereBought_input f))
              (if bool_decide (ScanSession.dateSub_input f = "") then None
               else Some (timestamptz (toISOString (ScanSession.dateSub_input f))))).
  assert (Hdate : date_subtracted (dateSubtracted b) now
                  = Some (if bool_decide (ScanSession.dateSub_input f = "")
                          then now
                          else toISOString (ScanSession.dateSub_input f))).
  { subst b. simpl. by case_bool_decide. }
  eexists _, _, _, b, _, _. split; [done|]. cbv beta iota. rewrite Hcode.
  split; [done|].
  split.
  { rewrite (initiate_found code d it Hne Hit).
    rewrite (ensure_present _ _ _ Hq0). fold q view.
    by rewrite bool_decide_eq_true_2. }
  split; [done|]. split; [done|].
  split.
  { simpl. intros Hss. unfold AppMobile.onConfirm. rewrite Hss. simpl.
    subst view b. by rewrite Hcode. }
  split; [done|].
  split; [by apply (confirm_in_stock now b code d it q _ eq_refl Hne Hit Hq0 Hq Hdate)|].
  split; [|done]. unfold onHand_of. simpl. by rewrite lookup_insert_eq.
Qed.

Lemma scan_in_remove_mode_then_yes_witness :
  let d := (serve [("2025-01-01T00:00:00Z", POST_items widget_body);
                   ("2025-01-02T00:00:00Z", POST_inventory_add (Some "X1"))]
              empty_db).1 in
  let s := scanning ScanSession.remove "X1" in
  let it := mkItem 0 "2025-01-01T00:00:00Z" "X1" None "Widget" None None None
                   None None None None None in
  let view := mkInitiateItem 0 "X1" None "Widget" None None in
  ∃ k k' s1 b ev d',
    handleSubmit no_env s = GET_item (trim (scanInput s)) k
    ∧ k (Lookup_item it) = POST_initiate (trim (scanInput s)) k'
    ∧ post_inventory_remove_initiate (Some (trim (scanInput s))) d
      = (d, CONFIRM_REQUIRED view (onHand_of (item_id it) d))
    ∧ k' (Initiate_confirm view (onHand_of (item_id it) d)) = Done s1
    ∧ confirmRemove s1
      = Some (ScanSession.mkPending view (onHand_of (item_id it) d))
    ∧ (ScanSession.confirmRemove asking = confirmRemove s1 →
       ScanSession.ConfirmRemoveModal (λ x, x) ScanSession.onCancel
         AppMobile.onConfirm filled ScanSession.Yes asking
       = (asking, [POST_inventory_remove_confirm b]))
    ∧ barcode b = Some (trim (scanInput s))
    ∧ post_inventory_remove_confirm "2025-01-03T00:00:00Z" b d
      = (d', REMOVED None (onHand_of (item_id it) d - 1) ev)
    ∧ onHand_of (item_id it) d' = onHand_of (item_id it) d - 1
    ∧ Order_Id ev = ScanSession.or_null (ScanSession.orderId_input filled).
Proof.
  intros d s it view.
  apply (scan_in_remove_mode_then_yes no_env s d it "2025-01-03T00:00:00Z"
           (λ x, x) filled asking).
  - apply serve_reachable, reachable_empty.
  - reflexivity.
  - vm_compute. intros [H|[H|H]]; discriminate H.
  - vm_compute; reflexivity.
  - vm_compute; reflexivity.
Defined.

(** ** The filters of the client, read by the server *)

Lemma FILTERABLE_is_filter_keys : FILTERABLE = filter_keys.
Proof. reflexivity. Qed.

(** A selection of clean values, joined with commas, is split back into
    the same values. *)
Lemma split_join (sel : list string) :
  sel ≠ [] → Forall (λ x, has_char "," x = false) sel →
  split_comma (String.concat "," sel) = sel.
Proof.
  induction sel as [|v sel IH]; [done|]. intros _ Hall.
  apply Forall_cons in Hall as [Hv Hall].
  destruct sel as [|w sel].
  - simpl. by apply split_comma_single.
  - change (String.concat "," (v :: w :: sel))
      with (v +:+ String "," (String.concat "," (w :: sel))).
    rewrite split_comma_app by done. by rewrite IH.
Qed.

Lemma parse_joined (k : string) (sel : list string) (query : gmap string qval) :
  sel ≠ [] →
  Forall (λ x, x ≠ "" ∧ trim x = x ∧ has_char "," x = false) sel →
  query !! k = Some (QStr (String.concat "," sel)) →
  parseList query k = sel.
Proof.
  intros Hne Hall Hk. unfold parseList. rewrite Hk. simpl.
  assert (Hjoin : String.concat "," sel ≠ "").
  { destruct sel as [|v [|w sel]]; [done| |].
    - apply Forall_cons in Hall as [(Hv & _) _]. by simpl.
    - simpl. by destruct v. }
  rewrite bool_decide_eq_false_2 by done.
  rewrite split_join; [|done|].
  - clear Hne Hk Hjoin. induction sel as [|v sel IH]; [done|].
    apply Forall_cons in Hall as [(Hv & Ht & _) Hall].
    simpl. rewrite filter_cons, Ht. rewrite decide_True by done.
    by rewrite IH.
  - eapply Forall_impl; [exact Hall|]. by intros x (_ & _ & Hx).
Qed.

(** The entries the client sends, as the query the server reads. *)
Lemma joined_lookup (f : gmap string (list string)) (keys : list string) (k : string) :
  NoDup keys →
  (list_to_map
     (map (λ e : string * string, (e.1, QStr e.2))
        (omap (λ queryKey,
                 match f !! queryKey with
                 | Some (v :: sel) => Some (queryKey, String.concat "," (v :: sel))
                 | _ => None
                 end) keys)) : gmap string qval) !! k
  = if decide (k ∈ keys)
    then match f !! k with
         | Some (v :: sel) => Some (QStr (String.concat "," (v :: sel)))
         | _ => None
         end
    else None.
Proof.
  induction keys as [|k0 keys IH]; intros Hnd.
  - simpl. rewrite lookup_empty. by destruct (decide (k ∈ [])) as [?%elem_of_nil|].
  - apply NoDup_cons in Hnd as [Hk0 Hnd]. specialize (IH Hnd).
    cbn [omap list_omap].
    destruct (decide (k = k0)) as [->|Hne].
    + rewrite decide_True by left.
      rewrite decide_False in IH by done.
      destruct (f !! k0) as [[|v sel]|]; [exact IH| |exact IH].
      simpl. by rewrite lookup_insert_eq.
    + assert (Hin : k ∈ k0 :: keys ↔ k ∈ keys).
      { rewrite elem_of_cons. split; [by intros [?|?]|by right]. }
      assert (Hrest : (if decide (k ∈ k0 :: keys)
                       then match f !! k with
                            | Some (v :: sel) =>
                                Some (QStr (String.concat "," (v :: sel)))
                            | _ => None
                            end
                       else None)
                      = (if decide (k ∈ keys)
                         then match f !! k with
                              | Some (v :: sel) =>
                                  Some (QStr (String.concat "," (v :: sel)))
                              | _ => None
                              end
                         else None)).
      { destruct (decide (k ∈ keys)) as [Hy|Hn].
        - rewrite decide_True; [done|]. by apply Hin.
        - rewrite decide_False; [done|]. intros ?. by apply Hn, Hin. }
      rewrite Hrest.
      destruct (f !! k0) as [[|v sel]|]; [exact IH| |exact IH].
      simpl. by rewrite lookup_insert_ne.
Qed.

Lemma makeQueryString_lookup (term : string) (f : gmap string (list string))
    (k : string) :
  k ∈ FILTERABLE →
  req_query (makeQueryString term f) !! k
  = match f !! k with
    | Some (v :: sel) => Some (QStr (String.concat "," (v :: sel)))
    | _ => None
    end.
Proof.
  intros Hk. unfold req_query, makeQueryString.
  rewrite map_app, list_to_map_app.
  assert (Hq : (list_to_map (map (λ e : string * string, (e.1, QStr e.2))
                   (if bool_decide (term = "") then [] else [("q", term)]))
                : gmap string qval) !! k = None).
  { case_bool_decide; simpl; [by rewrite lookup_empty|].
    rewrite lookup_insert_ne; [by rewrite lookup_empty|].
    intros <-. revert Hk. unfold FILTERABLE. not_listed. }
  rewrite lookup_union_r by exact Hq.
  rewrite joined_lookup; [by rewrite decide_True|].
  unfold FILTERABLE. repeat (apply NoDup_cons; split; [not_listed|]).
  apply NoDup_nil_2.
Qed.

Lemma makeQueryString_text (term : string) (f : gmap string (list string)) :
  trim (from_option qval_toString "" (req_query (makeQueryString term f) !! "q"))
  = trim term.
Proof.
  unfold req_query, makeQueryString.
  rewrite map_app, list_to_map_app.
  case_bool_decide as Ht.
  - rewrite lookup_union_r by apply lookup_empty.
    rewrite joined_lookup.
    + rewrite decide_False; [by subst|]. unfold FILTERABLE. not_listed.
    + unfold FILTERABLE. repeat (apply NoDup_cons; split; [not_listed|]).
      apply NoDup_nil_2.
  - assert (Hl : (list_to_map (map (λ e : string * string, (e.1, QStr e.2))
                                 [("q", term)]) : gmap string qval) !! "q"
                 = Some (QStr term))
      by (simpl; by rewrite lookup_insert_eq).
    by rewrite (lookup_union_Some_l _ _ _ _ Hl).
Qed.

Lemma filters_round_trip (term : string) (f : gmap string (list string))
    (k : string) :
  k ∈ FILTERABLE →
  Forall (λ x, x ≠ "" ∧ trim x = x ∧ has_char "," x = false) (default [] (f !! k)) →
  parseList (req_query (makeQueryString term f)) k = default [] (f !! k).
Proof.
  intros Hk Hall.
  pose proof (makeQueryString_lookup term f k Hk) as Hl.
  destruct (f !! k) as [[|v sel]|] eqn:Hf; simpl in *.
  - unfold parseList. by rewrite Hl.
  - by apply parse_joined.
  - unfold parseList. by rewrite Hl.
Qed.

(** X21. The filters chosen in the client arrive at the server as chosen:
    for every filterable field whose selected values are not empty, carry
    no white space at either end and contain no comma, the values the
    server reads for the field are the values selected, in the same order
    (none, when nothing is selected); and the free text the server uses is
    the text of the client, trimmed. *)
Theorem selected_filters_reach_the_server (term : string)
    (f : gmap string (list string)) (k : string) :
  k ∈ FILTERABLE →
  Forall (λ x, x ≠ "" ∧ trim x = x ∧ has_char "," x = false) (default [] (f !! k)) →
  parseList (req_query (makeQueryString term f)) k = default [] (f !! k)
  ∧ trim (from_option qval_toString ""
            (req_query (makeQueryString term f) !! "q")) = trim term.
Proof.
  intros Hk Hall. split; [by apply filters_round_trip|apply makeQueryString_text].
Qed.

Lemma selected_filters_reach_the_server_witness :
  let f : gmap string (list string) :=
    {[ "brand" := ["Acme"; "Stanley Tools"]; "color" := [] ]} in
  parseList (req_query (makeQueryString " mug " f)) "brand"
  = default [] (f !! "brand")
  ∧ trim (from_option qval_toString ""
            (req_query (makeQueryString " mug " f) !! "q")) = trim " mug ".
Proof.
  intros f.
  apply (selected_filters_reach_the_server " mug " f "brand").
  - unfold FILTERABLE. apply list_elem_of_here.
  - replace (default [] (f !! "brand")) with ["Acme"; "Stanley Tools"]
      by (vm_compute; reflexivity).
    repeat constructor; first [discriminate | vm_compute; reflexivity].
Defined.

(** A value with a comma does not survive: the server splits it. *)
Lemma comma_value_is_split :
  parseList (req_query (makeQueryString "" {[ "brand" := ["Acme, Inc."] ]})) "brand"
  = ["Acme"; "Inc."].
Proof. vm_compute; reflexivity. Qed.

Lemma elem_of_toggle (v x : string) (sel : list string) :
  x ∈ toggle v sel ↔ (x ≠ v ∧ x ∈ sel) ∨ (x = v ∧ v ∉ sel).
Proof.
  unfold toggle. case_bool_decide as Hv.
  - rewrite list_elem_of_filter. split.
    + intros [Hx Hin]. by left.
    + intros [[Hx Hin]|[_ Hno]]; [done|by destruct Hno].
  - rewrite elem_of_app, list_elem_of_singleton. split.
    + intros [Hin| ->]; [|by right]. left. split; [|done]. by intros ->.
    + intros [[_ Hin]|[-> _]]; [by left|by right].
Qed.

Lemma NoDup_toggle (v : string) (sel : list string) :
  NoDup sel → NoDup (toggle v sel).
Proof.
  intros Hnd. unfold toggle. case_bool_decide as Hv.
  - by apply NoDup_filter.
  - apply NoDup_app. split; [done|]. split; [|apply NoDup_singleton].
    intros x Hx ->%list_elem_of_singleton. done.
Qed.

(** X22. Toggling a value in a filter flips that value in the selection of
    that field and nothing else: the other values of the field, and the
    other fields, stay as they were, and a selection never holds a value
    twice.  The search sent is for the text last searched and for exactly
    the filters the state then holds, also when the search fails. *)
Theorem toggle_flips_one_value (queryKey value : string) (s : app) :
  NoDup (default [] (filters s !! queryKey)) →
  ∃ next k,
    toggleFilter queryKey value s
    = GET_search (makeQueryString (searchTerm s) next) k
    ∧ (∀ reply s', ends_in (k reply) s' → filters s' = next)
    ∧ (∀ x, x ∈ default [] (next !! queryKey)
            ↔ (x ≠ value ∧ x ∈ default [] (filters s !! queryKey))
              ∨ (x = value ∧ value ∉ default [] (filters s !! queryKey)))
    ∧ NoDup (default [] (next !! queryKey))
    ∧ (∀ other, other ≠ queryKey → next !! other = filters s !! other).
Proof.
  intros Hnd. unfold toggleFilter, apply_filters, runSearch.
  eexists _, _. split; [done|]. split.
  { intros reply s' H. unfold ends_in in H. destruct reply; by walk. }
  rewrite lookup_insert_eq. simpl. split; [intros x; apply elem_of_toggle|].
  split; [by apply NoDup_toggle|].
  intros other Hne. by rewrite lookup_insert_ne.
Qed.

Lemma toggle_flips_one_value_witness :
  let s := mkApp ScanSession.search "" "" None None "mug" [] None
                 {[ "brand" := ["Acme"; "Stanley"] ]} in
  ∃ next k,
    toggleFilter "brand" "Acme" s
    = GET_search (makeQueryString (searchTerm s) next) k
    ∧ (∀ reply s', ends_in (k reply) s' → filters s' = next)
    ∧ (∀ x, x ∈ default [] (next !! "brand")
            ↔ (x ≠ "Acme" ∧ x ∈ default [] (filters s !! "brand"))
              ∨ (x = "Acme" ∧ "Acme" ∉ default [] (filters s !! "brand")))
    ∧ NoDup (default [] (next !! "brand"))
    ∧ (∀ other, other ≠ "brand" → next !! other = filters s !! other).
Proof.
  intros s. apply (toggle_flips_one_value "brand" "Acme" s).
  replace (default [] (filters s !! "brand")) with ["Acme"; "Stanley"]
    by (vm_compute; reflexivity).
  repeat (apply NoDup_cons; split;
          [intros H; repeat (apply elem_of_cons in H as [H|H]; [discriminate H|]);
           by apply elem_of_nil in H|]).
  apply NoDup_nil_2.
Defined.

(** X23. What the search of the client selects.  With clean values
    selected (not empty, no white space at either end, no comma), the
    statement the server runs for the request of the client selects a row
    exactly when the trimmed text is blank or matches one of the searched
    columns, and every field with a selection has, letter case aside, one
    of the selected values in its column. *)
Theorem client_search_selects (text_of_number : number → string)
    (text_of_timestamp : string → string) (term : string)
    (f : gmap string (list string)) :
  (∀ k, k ∈ FILTERABLE →
        Forall (λ x, x ≠ "" ∧ trim x = x ∧ has_char "," x = false)
          (default [] (f !! k))) →
  ∃ st,
    get_items_search (req_query (makeQueryString term f)) = Search_rows st
    ∧ ∀ it,
        selects text_of_number text_of_timestamp st it
        = (bool_decide (trim term = "")
           || existsb
                (λ v, from_option
                        (λ t, ilike t ("%" +:+ escape_like (trim term) +:+ "%"))
                        false v)
                (searched_columns text_of_number text_of_timestamp it))
          && forallb (λ k, values_pass k (default [] (f !! k)) it) FILTERABLE.
Proof.
  intros Hclean.
  destruct (search_meaning text_of_number text_of_timestamp
              (req_query (makeQueryString term f))) as (st & Hst & _ & Hsel).
  exists st. split; [exact Hst|]. intros it. rewrite Hsel.
  unfold passes, text_passes, field_passes.
  rewrite makeQueryString_text. f_equal.
  rewrite <- FILTERABLE_is_filter_keys.
  assert (Hext : ∀ keys, (∀ k, k ∈ keys → k ∈ FILTERABLE) →
            forallb (λ key, values_pass key
                              (parseList (req_query (makeQueryString term f)) key) it)
              keys
            = forallb (λ k, values_pass k (default [] (f !! k)) it) keys).
  { induction keys as [|k keys IH]; intros Hin; [done|]. simpl.
    rewrite filters_round_trip; [|apply Hin; left|apply Hclean, Hin; left].
    rewrite IH; [done|]. intros k' Hk'. apply Hin. by right. }
  by apply Hext.
Qed.

Lemma client_search_selects_witness :
  let f : gmap string (list string) := {[ "brand" := ["acme"; "Stanley"] ]} in
  ∃ st,
    get_items_search (req_query (makeQueryString "" f)) = Search_rows st
    ∧ ∀ it,
        selects (λ _, "") (λ x, x) st it
        = (bool_decide (trim "" = "")
           || existsb
                (λ v, from_option
                        (λ t, ilike t ("%" +:+ escape_like (trim "") +:+ "%"))
                        false v)
                (searched_columns (λ _, "") (λ x, x) it))
          && forallb (λ k, values_pass k (default [] (f !! k)) it) FILTERABLE.
Proof.
  intros f. apply (client_search_selects (λ _, "") (λ x, x) "" f).
  intros k Hk. destruct (decide (k = "brand")) as [->|Hne].
  - replace (default [] (f !! "brand")) with ["acme"; "Stanley"]
      by (vm_compute; reflexivity).
    repeat constructor; first [discriminate | vm_compute; reflexivity].
  - subst f. rewrite lookup_singleton_ne by done. constructor.
Defined.

(** ** The form for a new item *)

Section NewItemForm.

Variable toISOString : string → option string.
Variable Number : string → option number.

(** X24. What the form for a new item sends is dated by the form, so the
    clock of the server has no part in the write and the same form can be
    sent again without effect.  The scan code and the model are sent
    trimmed: a form whose scan code or model is blank is refused with 400
    [MISSING_FIELDS], and any other form is answered with a row that has the
    trimmed scan code and model. *)
Theorem new_item_form_write (f : new_item_form) (b : item_body) (now now' : string)
    (d : db) :
  payload toISOString Number f = Some b →
  post_items now' b d = post_items now b d
  ∧ post_items now' b (post_items now b d).1
    = ((post_items now b d).1, (post_items now b d).2)
  ∧ (trim (form_ScannedCode f) = "" ∨ trim (form_Model f) = "" →
     post_items now b d = (d, Failure 400 MISSING_FIELDS None))
  ∧ (trim (form_ScannedCode f) ≠ "" → trim (form_Model f) ≠ "" →
     ∃ it, (post_items now b d).2 = Created_item it
         ∧ get_items_code (trim (form_ScannedCode f)) (post_items now b d).1
           = Item_row it
         ∧ Model it = trim (form_Model f)).
Proof.
  unfold payload. destruct (toISOString (form_InventoryDate f)) as [iso|]; [|done].
  intros [= <-].
  set (b := mkItemBody _ _ _ _ _ _ _ _ _ _ _ _).
  assert (Hclock : ∀ t t' d0, post_items t' b d0 = post_items t b d0).
  { intros t t' d0. unfold post_items, transaction, insert_item_on_conflict_update.
    simpl. destruct (_ || _); [done|]. by destruct (items d0 !! _). }
  split; [apply Hclock|].
  destruct (decide (trim (form_ScannedCode f) = "")) as [Hc|Hc].
  { assert (H400 : ∀ t d0, post_items t b d0 = (d0, Failure 400 MISSING_FIELDS None)).
    { intros t d0. unfold post_items. simpl. by rewrite Hc. }
    rewrite !H400. repeat split; try done. }
  destruct (decide (trim (form_Model f) = "")) as [Hm|Hm].
  { assert (H400 : ∀ t d0, post_items t b d0 = (d0, Failure 400 MISSING_FIELDS None)).
    { intros t d0. unfold post_items. simpl. rewrite Hm.
      by rewrite orb_true_r. }
    rewrite !H400. repeat split; try done. }
  split.
  { by eapply (dated_write_again now now' b d _ _ iso). }
  split; [by intros [?|?]|]. intros _ _.
  destruct (post_items_accepted now b d _ _ eq_refl Hc eq_refl Hm)
    as (v & Hvc & Hvm & _ & _ & _ & _ & _ & _ & _ & _ & _ & _ & Hpost).
  rewrite Hpost. destruct (upsert_items now v d) as (Hitems & _).
  eexists. split; [done|]. simpl. split.
  - unfold get_items_code, select_item.
    by rewrite ensure_items, Hitems, Hvc, lookup_insert_eq.
  - unfold insert_item_on_conflict_update.
    by destruct (items d !! v_ScannedCode v).
Qed.

(** X25. A new item, client and server together.  For a scan code that is
    not in the catalog, the form sends the catalog write, which creates the
    item with nothing on hand.  In add mode the form then sends the add for
    the scan code, after which one unit is on hand; in any other mode it
    sends nothing more, so an item created during a removal stays at 0.
    Either way the form for the new item is closed. *)
Theorem new_item_then_mode (f : new_item_form) (b : item_body) (s : app)
    (now : string) (d : db) :
  let code := trim (form_ScannedCode f) in
  reachable d →
  payload toISOString Number f = Some b →
  code ≠ "" → trim (form_Model f) ≠ "" →
  items d !! code = None →
  ∃ it d1 k,
    post_items now b d = (d1, Created_item it)
    ∧ submit toISOString Number f s = POST_items_form b k
    ∧ onHand_of (item_id it) d1 = 0
    ∧ (mode s = ScanSession.add →
       ∃ k' ev d2 s',
         k (Some it) = POST_add code k'
         ∧ post_inventory_add (Some code) d1
           = (d2, Created_add ev (item_id it) (Model it))
         ∧ onHand_of (item_id it) d2 = 1
         ∧ k' true = Done s' ∧ pendingItem s' = None ∧ scanInput s' = "")
    ∧ (mode s ≠ ScanSession.add →
       ∃ s', k (Some it) = Done s' ∧ pendingItem s' = None).
Proof.
  intros code Hd Hpay Hc Hm Hnone.
  unfold submit. rewrite Hpay.
  unfold payload in Hpay.
  destruct (toISOString (form_InventoryDate f)) as [iso|]; [|done].
  injection Hpay as <-.
  set (b := mkItemBody _ _ _ _ _ _ _ _ _ _ _ _).
  destruct (post_items_accepted now b d _ _ eq_refl Hc eq_refl Hm)
    as (v & Hvc & Hvm & _ & _ & _ & _ & _ & _ & _ & _ & _ & _ & Hpost).
  destruct (upsert_items now v d) as (Hitems & Hid).
  destruct (upsert_frame now v d) as (Hoh & _).
  set (d0 := (insert_item_on_conflict_update now v d).1) in *.
  set (it := (insert_item_on_conflict_update now v d).2) in *.
  rewrite Hvc in Hitems, Hid. fold code in Hitems, Hid.
  destruct Hid as [(old & Hold & _)|(_ & Hnew & _)]; [congruence|].
  destruct (reachable_invariants d Hd) as (_ & (Hrows & _) & _).
  assert (Hrow : inventory_onhand d !! next_id d = None).
  { destruct (inventory_onhand d !! next_id d) as [q|] eqn:E; [|done].
    apply Hrows in E. lia. }
  assert (Hzero : onHand_of (item_id it) (ensureOnHandRow (item_id it) d0) = 0).
  { unfold onHand_of. rewrite ensure_lookup. unfold onHand_of.
    by rewrite Hoh, Hnew, Hrow. }
  assert (Hcode : ScannedCode it = code).
  { subst it. unfold insert_item_on_conflict_update.
    rewrite Hvc. fold code. by rewrite Hnone. }
  assert (Hit : items (ensureOnHandRow (item_id it) d0) !! code = Some it).
  { by rewrite ensure_items, Hitems, lookup_insert_eq. }
  exists it, (ensureOnHandRow (item_id it) d0). eexists.
  split; [exact Hpost|]. split; [done|]. split; [exact Hzero|].
  cbv beta iota. unfold onCreated. split.
  - intros ->. rewrite Hcode.
    eexists _, _, _, _. split; [done|].
    rewrite (add_found code _ it Hc Hit). split; [done|]. split.
    + unfold onHand_of at 1. simpl. rewrite lookup_insert_eq. simpl.
      rewrite Hzero. done.
    + by cbv beta iota.
  - intros Hmode. destruct (mode s); [|done|..]; by eexists.
Qed.

End NewItemForm.

Lemma new_item_form_write_witness :
  let f := mkForm "2025-01-01T10:00" " X1 " "" "Widget" "" "" "" "" "" "" "" "" in
  let b := mkItemBody (Some "2025-01-01T10:00") (Some "X1") None (Some "Widget")
                      None None None None None num_absent num_absent num_absent in
  payload Some (λ _, None) f = Some b
  ∧ post_items "t1" b empty_db = post_items "t0" b empty_db.
Proof.
  intros f b. split; [vm_compute; reflexivity|].
  apply (new_item_form_write Some (λ _, None) f b "t0" "t1" empty_db).
  vm_compute; reflexivity.
Defined.

Lemma new_item_then_mode_witness :
  let f := mkForm "2025-01-01T10:00" " X1 " "" "Widget" "" "" "" "" "" "" "" "" in
  let b := mkItemBody (Some "2025-01-01T10:00") (Some "X1") None (Some "Widget")
                      None None None None None num_absent num_absent num_absent in
  let s := scanning ScanSession.remove "X1" in
  ∃ it d1 k,
    post_items "t0" b empty_db = (d1, Created_item it)
    ∧ submit Some (λ _, None) f s = POST_items_form b k
    ∧ onHand_of (item_id it) d1 = 0
    ∧ (mode s = ScanSession.add →
       ∃ k' ev d2 s',
         k (Some it) = POST_add (trim (form_ScannedCode f)) k'
         ∧ post_inventory_add (Some (trim (form_ScannedCode f))) d1
           = (d2, Created_add ev (item_id it) (Model it))
         ∧ onHand_of (item_id it) d2 = 1
         ∧ k' true = Done s' ∧ pendingItem s' = None ∧ scanInput s' = "")
    ∧ (mode s ≠ ScanSession.add →
       ∃ s', k (Some it) = Done s' ∧ pendingItem s' = None).
Proof.
  intros f b s.
  apply (new_item_then_mode Some (λ _, None) f b s "t0" empty_db).
  - apply reachable_empty.
  - vm_compute; reflexivity.
  - vm_compute; discriminate.
  - vm_compute; discriminate.
  - reflexivity.
Defined.

End Scan.
